(** * Contacts API: a shallow embedding of the repository and route layers

    The development follows the Python sources file by file:
    - [Date]: the part of [datetime.date] the program uses;
    - [Contact], [User]: the mapped entities of [src/database/models.py];
    - [store] and the monad [M]: the committed state of the database behind
      the [AsyncSession] the routes receive from [get_db], and Python's
      exceptions;
    - [UserSchema], [ContactSchema], [ContactUpdateSchema]: the request
      bodies of [src/schemas.py], the last two with their overriding
      constructors;
    - [Users] : [src/repository/users.py];
    - [Select], [Contacts] : the statements [src/repository/contact.py]
      builds, and its functions;
    - [AuthRoutes], [ContactRoutes] : [src/routes/auth.py] and
      [src/routes/contact.py].

    A route is embedded as its handler function: the value it returns (with
    the status code its decorator declares) or the exception it raises.  The
    timestamps [created_at]/[updated_at] of [User] are not represented. *)

From Stdlib Require Import ZArith List String Bool Lia.
Import ListNotations.

Open Scope string_scope.
Open Scope Z_scope.

(** ** Calendar dates *)

(** A [datetime.date] is represented by its proleptic Gregorian ordinal
    ([date.toordinal()]): comparison of dates is comparison of ordinals and
    [d + timedelta(days=n)] is addition on ordinals. *)
Module Date.

Definition date := Z.

Definition is_leap (y : Z) : bool :=
  (y mod 4 =? 0) && (negb (y mod 100 =? 0) || (y mod 400 =? 0)).

Definition days_before_year (y : Z) : Z :=
  let y1 := y - 1 in y1 * 365 + y1 / 4 - y1 / 100 + y1 / 400.

(** Days before the first of month [m] in a common year. *)
Definition days_before_month_table : list Z :=
  [0; 31; 59; 90; 120; 151; 181; 212; 243; 273; 304; 334].

Definition days_before_month (y m : Z) : Z :=
  nth (Z.to_nat (m - 1)) days_before_month_table 0
  + (if (2 <? m) && is_leap y then 1 else 0).

(** [date(y, m, d).toordinal()] *)
Definition ymd (y m d : Z) : date :=
  days_before_year y + days_before_month y m + d.

(** [d + timedelta(days=n)] *)
Definition add_days (d : date) (n : Z) : date := d + n.

Definition leb (a b : date) : bool := a <=? b.

End Date.

Abbreviation date := Date.date.

(** ** Exceptions and results *)

Inductive exn : Type :=
| HTTPException (status_code : Z) (detail : string)
| TypeError             (* a call that does not fit the callee's signature *)
| AttributeError        (* attribute access on an object that lacks it *)
| ArgumentError         (* sqlalchemy.exc.ArgumentError *)
| InvalidRequestError   (* sqlalchemy.exc.InvalidRequestError *)
| MultipleResultsFound  (* raised by scalar_one_or_none *)
| IntegrityError        (* a UNIQUE constraint rejected the commit *)
| DBAPIError.           (* the database rejected the statement *)

Inductive result (A : Type) : Type :=
| Ok (a : A)
| Raise (e : exn).
Arguments Ok {A} a.
Arguments Raise {A} e.

Definition HTTP_201_CREATED : Z := 201.
Definition HTTP_400_BAD_REQUEST : Z := 400.
Definition HTTP_401_UNAUTHORIZED : Z := 401.
Definition HTTP_404_NOT_FOUND : Z := 404.
Definition HTTP_409_CONFLICT : Z := 409.

(** What the client sees: on a normal return the status code the decorator
    declares, provided the returned value passes the validation of the
    route's [response_model], and 500 when it does not; the status of a
    raised [HTTPException]; and 500 for every other exception that leaves
    the handler. *)
Definition http_status {A} (declared : Z) (response_model : A -> bool)
    (r : result A) : Z :=
  match r with
  | Ok a => if response_model a then declared else 500
  | Raise (HTTPException code _) => code
  | Raise _ => 500
  end.

(** ** Entities (src/database/models.py) *)

(** Each mapped class is a module holding its row type, so that attributes
    read as in the source: [User.refresh_token u], [Contact.user_id c]. *)
Module User.
Record t : Type := mk {
  id : Z;
  username : string;
  email : string;
  password : string;
  avatar : option string;
  refresh_token : option string;
  confirmed : bool
}.
End User.

Module Contact.
Record t : Type := mk {
  id : Z;
  first_name : string;
  last_name : string;
  email : string;
  phone_number : string;
  birthday : date;
  created_date : option date;
  update_date : option date;
  user_id : option Z
}.
End Contact.

(** ** The database *)

(** The two tables in storage order and the two primary-key sequences.
    The store holds committed rows only.  Every write of the program is
    followed at once by an awaited [db.commit()], the assignment of
    [update_avatar] apart, which stays pending on its session; so the
    rollback of the session manager has no row to undo. *)
Record store : Type := mkStore {
  users : list User.t;
  contacts : list Contact.t;
  users_seq : Z;
  contacts_seq : Z
}.

Definition set_users (s : store) (us : list User.t) : store :=
  mkStore us (contacts s) (users_seq s) (contacts_seq s).

Definition set_contacts (s : store) (cs : list Contact.t) : store :=
  mkStore (users s) cs (users_seq s) (contacts_seq s).

(** The constraints the schema declares: primary keys drawn from the
    sequences and the two [unique=True] email columns. *)
Record store_ok (s : store) : Prop := {
  users_pk : NoDup (map User.id (users s));
  users_below_seq : Forall (fun u => User.id u < users_seq s) (users s);
  users_email_unique : NoDup (map User.email (users s));
  contacts_pk : NoDup (map Contact.id (contacts s));
  contacts_below_seq : Forall (fun c => Contact.id c < contacts_seq s) (contacts s);
  contacts_email_unique : NoDup (map Contact.email (contacts s))
}.

(** ** The monad of a request: database state and exceptions *)

Definition M (A : Type) : Type := store -> result A * store.

Definition ret {A} (a : A) : M A := fun s => (Ok a, s).

Definition raise {A} (e : exn) : M A := fun s => (Raise e, s).

Definition bind {A B} (m : M A) (k : A -> M B) : M B :=
  fun s =>
    match m s with
    | (Ok a, s') => k a s'
    | (Raise e, s') => (Raise e, s')
    end.

Definition lift {A} (r : result A) : M A := fun s => (r, s).

Definition get_store : M store := fun s => (Ok s, s).

Definition put_store (s' : store) : M unit := fun _ => (Ok tt, s').

Notation "x <- m ;; k" := (bind m (fun x => k))
  (at level 61, m at next level, right associativity).
Notation "m ;;; k" := (bind m (fun _ => k))
  (at level 61, right associativity).

(** [Result.scalar_one_or_none()] *)
Definition scalar_one_or_none {A} (rows : list A) : result (option A) :=
  match rows with
  | [] => Ok None
  | [x] => Ok (Some x)
  | _ :: _ :: _ => Raise MultipleResultsFound
  end.

(** [Result.scalars().first()] *)
Definition scalars_first {A} (rows : list A) : option A :=
  match rows with
  | [] => None
  | x :: _ => Some x
  end.

(** ** Schemas (src/schemas.py) *)

Module UserSchema.
(** The field constraints (lengths, [EmailStr]) are checked when the
    request is parsed; a handler only ever receives a validated body. *)
Record t : Type := mk {
  username : string;
  email : string;
  password : string
}.
End UserSchema.

(** The keyword arguments a contact payload is built from.  The five
    required fields are present and well typed; [created_date] and
    [update_date] are an absent key ([None]), an explicit null
    ([Some None]) or a date. *)
Record contact_data : Type := mk_contact_data {
  data_first_name : string;
  data_last_name : string;
  data_email : string;
  data_phone_number : string;
  data_birthday : date;
  data_created_date : option (option date);
  data_update_date : option (option date)
}.

Inductive ValidationError : Type := field_required (field : string).

Module ContactSchema.
Record t : Type := mk {
  first_name : string;
  last_name : string;
  email : string;
  phone_number : string;
  birthday : date;
  created_date : option date
}.

(** [super().__init__] on the payload: [created_date: Optional[date]] has no
    default, so the key has to be there (null is accepted). *)
Definition validate (data : contact_data) : ValidationError + t :=
  match data_created_date data with
  | None => inl (field_required "created_date")
  | Some d =>
      inr (mk (data_first_name data) (data_last_name data) (data_email data)
              (data_phone_number data) (data_birthday data) d)
  end.

Definition set_created_date (self : t) (d : option date) : t :=
  mk (first_name self) (last_name self) (email self) (phone_number self)
     (birthday self) d.

(** [__init__]: validate, then [self.created_date = date.today()]. *)
Definition init (today : date) (data : contact_data) : ValidationError + t :=
  match validate data with
  | inl e => inl e
  | inr self => inr (set_created_date self (Some today))
  end.
End ContactSchema.

Module ContactUpdateSchema.
Record t : Type := mk {
  first_name : string;
  last_name : string;
  email : string;
  phone_number : string;
  birthday : date;
  update_date : option date
}.

Definition validate (data : contact_data) : ValidationError + t :=
  match data_update_date data with
  | None => inl (field_required "update_date")
  | Some d =>
      inr (mk (data_first_name data) (data_last_name data) (data_email data)
              (data_phone_number data) (data_birthday data) d)
  end.

Definition set_update_date (self : t) (d : option date) : t :=
  mk (first_name self) (last_name self) (email self) (phone_number self)
     (birthday self) d.

(** [__init__]: validate, then [self.update_date = date.today()]. *)
Definition init (today : date) (data : contact_data) : ValidationError + t :=
  match validate data with
  | inl e => inl e
  | inr self => inr (set_update_date self (Some today))
  end.
End ContactUpdateSchema.

(** ** Collaborators whose source is outside this development *)

(** [auth_service] of [src/services/auth.py], as the routes use it: its
    answers during the request at hand.  The two decoders raise instead of
    returning when the token is invalid or expired. *)
Record AuthService : Type := mkAuthService {
  get_password_hash : string -> string;
  verify_password : string -> string -> bool;
  create_access_token : string -> string;     (* data={"sub": email} *)
  create_refresh_token : string -> string;    (* data={"sub": email} *)
  decode_refresh_token : string -> result string;
  get_email_from_token : string -> result string
}.

(** [Gravatar(email).get_image()] of libgravatar. *)
Definition GravatarService : Type := string -> result string.

(** ** User repository (src/repository/users.py) *)

Module Users.

Definition get_user_by_email (email : string) : M (option User.t) :=
  s <- get_store ;;
  lift (scalar_one_or_none
          (filter (fun u => String.eqb (User.email u) email) (users s))).

(** [db.add(new_user); await db.commit(); await db.refresh(new_user)]:
    the row gets the next value of the sequence, [refresh_token] is NULL
    and [confirmed] takes its column default; the UNIQUE constraint on
    [email] rejects a second row with the same address. *)
Definition insert_user (username email password : string)
    (avatar : option string) : M User.t :=
  s <- get_store ;;
  if existsb (fun u => String.eqb (User.email u) email) (users s)
  then raise IntegrityError
  else
    let new_user :=
      User.mk (users_seq s) username email password avatar None false in
    put_store (mkStore (users s ++ [new_user]) (contacts s)
                       (users_seq s + 1) (contacts_seq s)) ;;;
    ret new_user.

Definition create_user (gravatar : GravatarService) (body : UserSchema.t)
    : M User.t :=
  let avatar :=
    match gravatar (UserSchema.email body) with
    | Ok url => Some url
    | Raise _ => None          (* logging.error(e) *)
    end in
  insert_user (UserSchema.username body) (UserSchema.email body)
              (UserSchema.password body) avatar.

Definition set_refresh_token (u : User.t) (token : option string) : User.t :=
  User.mk (User.id u) (User.username u) (User.email u) (User.password u)
          (User.avatar u) token (User.confirmed u).

Definition set_confirmed (u : User.t) (b : bool) : User.t :=
  User.mk (User.id u) (User.username u) (User.email u) (User.password u)
          (User.avatar u) (User.refresh_token u) b.

Definition set_avatar (u : User.t) (url : option string) : User.t :=
  User.mk (User.id u) (User.username u) (User.email u) (User.password u)
          url (User.refresh_token u) (User.confirmed u).

(** The UPDATE a commit issues for a modified [User] object: the row with
    the object's primary key gets the new column value. *)
Definition update_user_row (user : User.t) (f : User.t -> User.t) : M unit :=
  s <- get_store ;;
  put_store
    (set_users s
       (map (fun u => if User.id u =? User.id user then f u else u)
            (users s))).

Definition update_token (user : User.t) (token : option string) : M unit :=
  update_user_row user (fun u => set_refresh_token u token).

Definition confirmed_email (email : string) : M unit :=
  user <- get_user_by_email email ;;
  match user with
  | None => raise AttributeError      (* None.confirmed = True *)
  | Some user => update_user_row user (fun u => set_confirmed u true)
  end.

(** [db.commit()] is called without [await]: the coroutine never runs, so
    the function commits nothing.  The assignment stays pending on the
    object it returns, which belongs to the caller's session: only an
    awaited commit the caller makes afterwards on that session would write
    it, and [src/] holds no caller. *)
Definition update_avatar (email : string) (url : string) : M User.t :=
  user <- get_user_by_email email ;;
  match user with
  | None => raise AttributeError      (* None.avatar = url *)
  | Some user => ret (set_avatar user (Some url))
  end.

End Users.

(** ** Auth routes (src/routes/auth.py) *)

(** [send_email(email, username, host)], queued on [BackgroundTasks]. *)
Inductive task : Type :=
| send_email (email username host : string).

Module OAuth2PasswordRequestForm.
Record t : Type := mk { username : string; password : string }.
End OAuth2PasswordRequestForm.

Module TokenModel.
Record t : Type := mk {
  access_token : string;
  refresh_token : string;
  token_type : string
}.
End TokenModel.

Definition option_string_eqb (a b : option string) : bool :=
  match a, b with
  | Some x, Some y => String.eqb x y
  | None, None => true
  | _, _ => false
  end.

Module AuthRoutes.
Section Routes.

Variable auth_service : AuthService.
Variable gravatar : GravatarService.

Record signup_response : Type := mk_signup_response {
  user : User.t;
  detail : string
}.

Definition signup_status_code : Z := HTTP_201_CREATED.

(** The handler returns its dictionary; the queue of background tasks it
    was handed comes back with the confirmation mail appended. *)
Definition signup (body : UserSchema.t) (background_tasks : list task)
    (base_url : string) : M (signup_response * list task) :=
  exist_user <- Users.get_user_by_email (UserSchema.email body) ;;
  match exist_user with
  | Some _ =>
      raise (HTTPException HTTP_409_CONFLICT "Account already exists")
  | None =>
      let body :=
        UserSchema.mk (UserSchema.username body) (UserSchema.email body)
          (get_password_hash auth_service (UserSchema.password body)) in
      new_user <- Users.create_user gravatar body ;;
      ret (mk_signup_response new_user "User successfully created",
           (background_tasks
              ++ [send_email (User.email new_user) (User.username new_user)
                             base_url])%list)
  end.

Definition login (body : OAuth2PasswordRequestForm.t) : M TokenModel.t :=
  user <- Users.get_user_by_email (OAuth2PasswordRequestForm.username body) ;;
  match user with
  | None => raise (HTTPException HTTP_401_UNAUTHORIZED "Invalid email")
  | Some user =>
      if negb (User.confirmed user) then
        raise (HTTPException HTTP_401_UNAUTHORIZED "Email not confirmed")
      else if negb (verify_password auth_service
                      (OAuth2PasswordRequestForm.password body)
                      (User.password user)) then
        raise (HTTPException HTTP_401_UNAUTHORIZED "Invalid password")
      else
        let access_token :=
          create_access_token auth_service (User.email user) in
        let refresh_token :=
          create_refresh_token auth_service (User.email user) in
        Users.update_token user (Some refresh_token) ;;;
        ret (TokenModel.mk access_token refresh_token "bearer")
  end.

Definition refresh_token (credentials : string) : M TokenModel.t :=
  let token := credentials in
  email <- lift (decode_refresh_token auth_service token) ;;
  user <- Users.get_user_by_email email ;;
  match user with
  | None => raise AttributeError      (* None.refresh_token *)
  | Some user =>
      if negb (option_string_eqb (User.refresh_token user) (Some token)) then
        Users.update_token user None ;;;
        raise (HTTPException HTTP_401_UNAUTHORIZED "Invalid refresh token")
      else
        let access_token := create_access_token auth_service email in
        let refresh_token := create_refresh_token auth_service email in
        Users.update_token user (Some refresh_token) ;;;
        ret (TokenModel.mk access_token refresh_token "bearer")
  end.

(** The handler of ['/{username}'], which the source also names
    [refresh_token]: it prints and redirects to the tracking image. *)
Definition refresh_token' (username : string) : M string :=
  ret "http://localhost:8000/static/check.png".

Definition confirmed_email (token : string) : M string :=
  email <- lift (get_email_from_token auth_service token) ;;
  user <- Users.get_user_by_email email ;;
  match user with
  | None =>
      raise (HTTPException HTTP_400_BAD_REQUEST "Verification error")
  | Some user =>
      if User.confirmed user then ret "Your email is already confirmed"
      else Users.confirmed_email email ;;; ret "Email confirmed"
  end.

End Routes.
End AuthRoutes.

(** ** The response model of signup (src/schemas.py) *)

Module UserResponseSchema.

(** The fields of the model; none of them has a default. *)
Definition fields : list string := ["id"; "username"; "email"; "avatar"].

(** Validation of a dictionary that a handler returned: every field of the
    model has to be one of its keys. *)
Definition validate (keys : list string) : bool :=
  forallb (fun field => existsb (String.eqb field) keys) fields.

End UserResponseSchema.

(** The keys of the dictionary [signup] returns,
    [{"user": new_user, "detail": ...}]. *)
Definition signup_response_keys
    (response : AuthRoutes.signup_response * list task) : list string :=
  ["user"; "detail"].

(** [response_model=UserResponseSchema] on what [signup] returns. *)
Definition signup_response_model
    (response : AuthRoutes.signup_response * list task) : bool :=
  UserResponseSchema.validate (signup_response_keys response).

(** ** Python values and calls *)

(** The contact routes hand their arguments to the repository in orders and
    numbers that differ from the repository's signatures, so the contact
    repository is embedded at the level of Python's calling convention: a
    parameter holds whatever object the caller put there. *)
Inductive pyval : Type :=
| PyNone
| PyInt (z : Z)
| PySession                                   (* the AsyncSession of get_db *)
| PyUser (u : User.t)
| PyContactSchema (b : ContactSchema.t)
| PyContactUpdateSchema (b : ContactUpdateSchema.t).

(** Binding positional arguments to the parameters of a [def] with one,
    three or four required parameters: any other number is a [TypeError]
    raised by the call itself. *)
Definition call1 {A} (f : pyval -> M A) (args : list pyval) : M A :=
  match args with
  | [a] => f a
  | _ => raise TypeError
  end.

Definition call3 {A} (f : pyval -> pyval -> pyval -> M A)
    (args : list pyval) : M A :=
  match args with
  | [a; b; c] => f a b c
  | _ => raise TypeError
  end.

Definition call4 {A} (f : pyval -> pyval -> pyval -> pyval -> M A)
    (args : list pyval) : M A :=
  match args with
  | [a; b; c; d] => f a b c d
  | _ => raise TypeError
  end.

(** [l[o:]] and [l[:n]] on a Python list. *)
Definition slice_from {A} (l : list A) (o : Z) : list A :=
  if 0 <=? o then skipn (Z.to_nat o) l
  else skipn (Z.to_nat (Z.of_nat (List.length l) + o)) l.

Definition slice_to {A} (l : list A) (n : Z) : list A :=
  if 0 <=? n then firstn (Z.to_nat n) l
  else firstn (Z.to_nat (Z.of_nat (List.length l) + n)) l.

(** ** [select(Contact)] statements *)

Module Select.

Inductive criterion : Type :=
| id_eq (v : pyval)                 (* Contact.id == v *)
| user_is (u : option User.t)       (* Contact.user == u *)
| birthday_ge (d : date)            (* Contact.birthday >= d *)
| birthday_le (d : date).           (* Contact.birthday <= d *)

(** The keywords the program passes to [filter_by] and [where]. *)
Inductive keyword : Type := kw_id | kw_user.

Record t : Type := mk {
  whereclause : list criterion;
  offset_clause : option Z;
  limit_clause : option Z
}.

Definition select_Contact : t := mk [] None None.

(** [Contact.id == v]: building the comparison of the column with a mapped
    instance is an [ArgumentError]; any other value is bound as a
    parameter. *)
Definition id_equals (v : pyval) : result criterion :=
  match v with
  | PyUser _ => Raise ArgumentError
  | _ => Ok (id_eq v)
  end.

(** One keyword of [filter_by]: a relationship is compared with a mapped
    instance or with None, anything else is an [ArgumentError]. *)
Definition by_keyword (kw : keyword * pyval) : result criterion :=
  match kw with
  | (kw_id, v) => id_equals v
  | (kw_user, PyUser u) => Ok (user_is (Some u))
  | (kw_user, PyNone) => Ok (user_is None)
  | (kw_user, _) => Raise ArgumentError
  end.

Fixpoint by_keywords (kwargs : list (keyword * pyval))
    : result (list criterion) :=
  match kwargs with
  | [] => Ok []
  | kw :: rest =>
      match by_keyword kw with
      | Raise e => Raise e
      | Ok c =>
          match by_keywords rest with
          | Raise e => Raise e
          | Ok cs => Ok (c :: cs)
          end
      end
  end.

Definition add_criteria (sq : t) (cs : list criterion) : t :=
  mk (whereclause sq ++ cs) (offset_clause sq) (limit_clause sq).

(** [Select.filter_by] with its keyword arguments. *)
Definition filter_by (sq : t) (kwargs : list (keyword * pyval)) : result t :=
  match by_keywords kwargs with
  | Raise e => Raise e
  | Ok cs => Ok (add_criteria sq cs)
  end.

(** [Select.where]: the method takes positional criteria
    only, a keyword argument is an unexpected one. *)
Definition where_ (sq : t) (criteria : list criterion)
    (kwargs : list (keyword * pyval)) : result t :=
  match kwargs with
  | [] => Ok (add_criteria sq criteria)
  | _ :: _ => Raise TypeError
  end.

(** [.offset(v)] and [.limit(v)]: None or something [int()] accepts. *)
Definition asint (v : pyval) : result (option Z) :=
  match v with
  | PyNone => Ok None
  | PyInt z => Ok (Some z)
  | _ => Raise TypeError
  end.

Definition offset (sq : t) (v : pyval) : result t :=
  match asint v with
  | Raise e => Raise e
  | Ok o => Ok (mk (whereclause sq) o (limit_clause sq))
  end.

Definition limit (sq : t) (v : pyval) : result t :=
  match asint v with
  | Raise e => Raise e
  | Ok l => Ok (mk (whereclause sq) (offset_clause sq) l)
  end.

(** *** Execution *)

(** A criterion as a test on rows; an integer column cannot be compared
    with a bound value that is not an integer or NULL, and a comparison
    with NULL selects nothing. *)
Definition test (c : criterion) : result (Contact.t -> bool) :=
  match c with
  | id_eq (PyInt z) => Ok (fun row => Contact.id row =? z)
  | id_eq PyNone => Ok (fun _ => false)
  | id_eq _ => Raise DBAPIError
  | user_is (Some u) =>
      Ok (fun row =>
            match Contact.user_id row with
            | Some i => i =? User.id u
            | None => false
            end)
  | user_is None =>
      Ok (fun row =>
            match Contact.user_id row with
            | Some _ => false
            | None => true
            end)
  | birthday_ge d => Ok (fun row => Date.leb d (Contact.birthday row))
  | birthday_le d => Ok (fun row => Date.leb (Contact.birthday row) d)
  end.

Fixpoint tests (cs : list criterion) : result (Contact.t -> bool) :=
  match cs with
  | [] => Ok (fun _ => true)
  | c :: rest =>
      match test c with
      | Raise e => Raise e
      | Ok p =>
          match tests rest with
          | Raise e => Raise e
          | Ok q => Ok (fun row => p row && q row)
          end
      end
  end.

(** OFFSET and LIMIT; the database refuses a negative count. *)
Definition page (o l : option Z) (rows : list Contact.t)
    : result (list Contact.t) :=
  match o, l with
  | Some o, _ => if o <? 0 then Raise DBAPIError else
      match l with
      | Some l => if l <? 0 then Raise DBAPIError
                  else Ok (firstn (Z.to_nat l) (skipn (Z.to_nat o) rows))
      | None => Ok (skipn (Z.to_nat o) rows)
      end
  | None, Some l => if l <? 0 then Raise DBAPIError
                    else Ok (firstn (Z.to_nat l) rows)
  | None, None => Ok rows
  end.

(** The rows a statement selects from the table, in storage order. *)
Definition run (sq : t) (table : list Contact.t) : result (list Contact.t) :=
  match tests (whereclause sq) with
  | Raise e => Raise e
  | Ok p => page (offset_clause sq) (limit_clause sq) (filter p table)
  end.

(** [await db.execute(sq)]: only a session has the method. *)
Definition execute (db : pyval) (sq : t) : M (list Contact.t) :=
  match db with
  | PySession => s <- get_store ;; lift (run sq (contacts s))
  | _ => raise AttributeError
  end.

End Select.

(** ** Contact repository (src/repository/contact.py) *)

Module Contacts.

Import Select.

Definition get_contacts (limit offset db user : pyval)
    : M (list Contact.t) :=
  sq <- lift (filter_by select_Contact [(kw_user, user)]) ;;
  sq <- lift (Select.offset sq offset) ;;
  sq <- lift (Select.limit sq limit) ;;
  contacts <- execute db sq ;;
  ret contacts.

Definition get_contact (contact_id db user : pyval)
    : M (option Contact.t) :=
  criterion <- lift (id_equals contact_id) ;;
  sq <- lift (where_ select_Contact [criterion] [(kw_user, user)]) ;;
  contact <- execute db sq ;;
  ret (scalars_first contact).

(** Attribute access [body.first_name], ... on whatever [body] holds. *)
Definition as_ContactSchema (body : pyval) : result ContactSchema.t :=
  match body with
  | PyContactSchema b => Ok b
  | _ => Raise AttributeError
  end.

Definition as_ContactUpdateSchema (body : pyval)
    : result ContactUpdateSchema.t :=
  match body with
  | PyContactUpdateSchema b => Ok b
  | _ => Raise AttributeError
  end.

(** The value of the relationship [user=...] of a new [Contact]. *)
Definition as_owner (user : pyval) : result (option Z) :=
  match user with
  | PyUser u => Ok (Some (User.id u))
  | PyNone => Ok None
  | _ => Raise AttributeError
  end.

Definition as_session (db : pyval) : result unit :=
  match db with
  | PySession => Ok tt
  | _ => Raise AttributeError
  end.

(** [db.add(contact); await db.commit(); await db.refresh(contact)]: the
    row gets the next value of the sequence, [update_date] takes its
    column default [date.today], and so does [created_date] when the body
    holds None for it; the UNIQUE constraint on [email] rejects a second
    row with the same address. *)
Definition insert_contact (today : date) (b : ContactSchema.t)
    (owner : option Z) : M Contact.t :=
  s <- get_store ;;
  if existsb (fun c => String.eqb (Contact.email c) (ContactSchema.email b))
             (contacts s)
  then raise IntegrityError
  else
    let contact :=
      Contact.mk (contacts_seq s)
        (ContactSchema.first_name b) (ContactSchema.last_name b)
        (ContactSchema.email b) (ContactSchema.phone_number b)
        (ContactSchema.birthday b)
        (match ContactSchema.created_date b with
         | Some d => Some d
         | None => Some today
         end)
        (Some today) owner in
    put_store (mkStore (users s) (contacts s ++ [contact])
                       (users_seq s) (contacts_seq s + 1)) ;;;
    ret contact.

Definition create_contact (today : date) (body db user : pyval)
    : M Contact.t :=
  b <- lift (as_ContactSchema body) ;;
  owner <- lift (as_owner user) ;;
  lift (as_session db) ;;;
  insert_contact today b owner.

Definition apply_update (c : Contact.t) (b : ContactUpdateSchema.t)
    : Contact.t :=
  Contact.mk (Contact.id c)
    (ContactUpdateSchema.first_name b) (ContactUpdateSchema.last_name b)
    (ContactUpdateSchema.email b) (ContactUpdateSchema.phone_number b)
    (ContactUpdateSchema.birthday b) (Contact.created_date c)
    (ContactUpdateSchema.update_date b) (Contact.user_id c).

(** The UPDATE of the commit: the row with the contact's primary key is
    replaced, unless another row already has the new email. *)
Definition update_contact_row (contact : Contact.t) : M unit :=
  s <- get_store ;;
  if existsb (fun c => negb (Contact.id c =? Contact.id contact)
                       && String.eqb (Contact.email c) (Contact.email contact))
             (contacts s)
  then raise IntegrityError
  else
    put_store
      (set_contacts s
         (map (fun c => if Contact.id c =? Contact.id contact
                        then contact else c)
              (contacts s))).

Definition update_contact (contact_id body db user : pyval)
    : M (option Contact.t) :=
  sq <- lift (filter_by select_Contact
                [(kw_id, contact_id); (kw_user, user)]) ;;
  rows <- execute db sq ;;
  contact <- lift (scalar_one_or_none rows) ;;
  match contact with
  | Some contact =>
      b <- lift (as_ContactUpdateSchema body) ;;
      let contact := apply_update contact b in
      update_contact_row contact ;;;
      ret (Some contact)
  | None => ret None
  end.

(** The DELETE of the commit. *)
Definition delete_contact_row (contact : Contact.t) : M unit :=
  s <- get_store ;;
  put_store
    (set_contacts s
       (filter (fun c => negb (Contact.id c =? Contact.id contact))
               (contacts s))).

Definition remove_contact (contact_id body db user : pyval)
    : M (option Contact.t) :=
  sq <- lift (filter_by select_Contact
                [(kw_id, contact_id); (kw_user, user)]) ;;
  rows <- execute db sq ;;
  contact <- lift (scalar_one_or_none rows) ;;
  match contact with
  | Some contact => delete_contact_row contact ;;; ret (Some contact)
  | None => ret None
  end.

(** [today] is [datetime.now().date()]. *)
Definition get_upcoming_birthdays (today : date) (db : pyval)
    : M (list Contact.t) :=
  let end_date := Date.add_days today 7 in
  contacts <- lift (where_ select_Contact [birthday_ge today] []) ;;
  contacts <- lift (where_ contacts [birthday_le end_date] []) ;;
  upcoming_birthdays <- execute db contacts ;;
  ret upcoming_birthdays.

End Contacts.

(** ** Contact routes (src/routes/contact.py) *)

(** Every handler receives the session of [get_db]; those that declare it
    receive the user [auth_service.get_current_user] resolved. *)
Module ContactRoutes.

Definition RequestValidationError : exn :=
  HTTPException 422 "Unprocessable Entity".

(** [Path(ge=1)] *)
Definition Path_ge_1 (contact_id : Z) : M unit :=
  if 1 <=? contact_id then ret tt else raise RequestValidationError.

Definition NOT_FOUND : exn := HTTPException HTTP_404_NOT_FOUND "NOT FOUND".

Definition read_contacts (skip limit : Z) (current_user : User.t)
    : M (list Contact.t) :=
  contacts <- call4 Contacts.get_contacts
                [PyInt skip; PyInt limit; PyUser current_user; PySession] ;;
  ret contacts.

(** Bound to the same path and method as [read_contacts], after it. *)
Definition get_all (limit offset : Z) (user : User.t)
    : M (list Contact.t) :=
  contacts <- call4 Contacts.get_contacts [PySession] ;;
  ret (slice_to (slice_from contacts offset) limit).

Definition get_contact (contact_id : Z) (user : User.t) : M Contact.t :=
  Path_ge_1 contact_id ;;;
  contact <- call3 Contacts.get_contact
               [PyInt contact_id; PySession; PyUser user] ;;
  match contact with
  | None => raise NOT_FOUND
  | Some contact => ret contact
  end.

Definition create_contact_status_code : Z := HTTP_201_CREATED.

Definition create_contact (today : date) (body : ContactSchema.t)
    (user : User.t) : M Contact.t :=
  contact <- call3 (Contacts.create_contact today)
               [PyContactSchema body; PySession; PyUser user] ;;
  ret contact.

Definition update_contact (body : ContactUpdateSchema.t) (contact_id : Z)
    (user : User.t) : M Contact.t :=
  Path_ge_1 contact_id ;;;
  contact <- call4 Contacts.update_contact
               [PyInt contact_id; PyContactUpdateSchema body; PySession;
                PyUser user] ;;
  match contact with
  | None => raise NOT_FOUND
  | Some contact => ret contact
  end.

Definition delete_contact (contact_id : Z) (user : User.t) : M Contact.t :=
  Path_ge_1 contact_id ;;;
  contact <- call4 Contacts.remove_contact
               [PyInt contact_id; PySession; PyUser user] ;;
  match contact with
  | None => raise NOT_FOUND
  | Some contact => ret contact
  end.

Definition get_upcoming_birthdays (today : date) : M (list Contact.t) :=
  call1 (Contacts.get_upcoming_birthdays today) [PySession].

End ContactRoutes.

(** ** Every operation of the two layers, as one request type *)

(** Used to state properties that hold of the program as a whole: the
    state after any handler or repository function has run. *)
Inductive operation : Type :=
| Users_get_user_by_email (email : string)
| Users_create_user (body : UserSchema.t)
| Users_update_token (user : User.t) (token : option string)
| Users_confirmed_email (email : string)
| Users_update_avatar (email url : string)
| Auth_signup (body : UserSchema.t) (background_tasks : list task)
    (base_url : string)
| Auth_login (body : OAuth2PasswordRequestForm.t)
| Auth_refresh_token (credentials : string)
| Auth_refresh_token' (username : string)
| Auth_confirmed_email (token : string)
| Contacts_get_contacts (args : list pyval)
| Contacts_get_contact (args : list pyval)
| Contacts_create_contact (args : list pyval)
| Contacts_update_contact (args : list pyval)
| Contacts_remove_contact (args : list pyval)
| Contacts_get_upcoming_birthdays (args : list pyval)
| Route_read_contacts (skip limit : Z) (current_user : User.t)
| Route_get_all (limit offset : Z) (user : User.t)
| Route_get_contact (contact_id : Z) (user : User.t)
| Route_create_contact (body : ContactSchema.t) (user : User.t)
| Route_update_contact (body : ContactUpdateSchema.t) (contact_id : Z)
    (user : User.t)
| Route_delete_contact (contact_id : Z) (user : User.t)
| Route_get_upcoming_birthdays.

Definition after {A} (m : M A) (s : store) : store := snd (m s).

(** The store an operation leaves behind. *)
Definition exec (auth_service : AuthService) (gravatar : GravatarService)
    (today : date) (op : operation) (s : store) : store :=
  match op with
  | Users_get_user_by_email email => after (Users.get_user_by_email email) s
  | Users_create_user body => after (Users.create_user gravatar body) s
  | Users_update_token user token => after (Users.update_token user token) s
  | Users_confirmed_email email => after (Users.confirmed_email email) s
  | Users_update_avatar email url => after (Users.update_avatar email url) s
  | Auth_signup body background_tasks base_url =>
      after (AuthRoutes.signup auth_service gravatar body background_tasks
               base_url) s
  | Auth_login body => after (AuthRoutes.login auth_service body) s
  | Auth_refresh_token credentials =>
      after (AuthRoutes.refresh_token auth_service credentials) s
  | Auth_refresh_token' username => after (AuthRoutes.refresh_token' username) s
  | Auth_confirmed_email token =>
      after (AuthRoutes.confirmed_email auth_service token) s
  | Contacts_get_contacts args => after (call4 Contacts.get_contacts args) s
  | Contacts_get_contact args => after (call3 Contacts.get_contact args) s
  | Contacts_create_contact args =>
      after (call3 (Contacts.create_contact today) args) s
  | Contacts_update_contact args =>
      after (call4 Contacts.update_contact args) s
  | Contacts_remove_contact args =>
      after (call4 Contacts.remove_contact args) s
  | Contacts_get_upcoming_birthdays args =>
      after (call1 (Contacts.get_upcoming_birthdays today) args) s
  | Route_read_contacts skip limit current_user =>
      after (ContactRoutes.read_contacts skip limit current_user) s
  | Route_get_all limit offset user =>
      after (ContactRoutes.get_all limit offset user) s
  | Route_get_contact contact_id user =>
      after (ContactRoutes.get_contact contact_id user) s
  | Route_create_contact body user =>
      after (ContactRoutes.create_contact today body user) s
  | Route_update_contact body contact_id user =>
      after (ContactRoutes.update_contact body contact_id user) s
  | Route_delete_contact contact_id user =>
      after (ContactRoutes.delete_contact contact_id user) s
  | Route_get_upcoming_birthdays =>
      after (ContactRoutes.get_upcoming_birthdays today) s
  end.

(** The user with primary key [uid] is stored with [confirmed = true]. *)
Definition is_confirmed (s : store) (uid : Z) : bool :=
  existsb (fun u => (User.id u =? uid) && User.confirmed u) (users s).

(** [Contact.user == u] as a test on rows: the contact's owner is [u]. *)
Definition owned_by (u : User.t) (c : Contact.t) : bool :=
  match Contact.user_id c with
  | Some i => i =? User.id u
  | None => false
  end.

(** The birthday lies between [today] and seven days later, both ends
    included. *)
Definition in_window (today : date) (c : Contact.t) : bool :=
  (today <=? Contact.birthday c) && (Contact.birthday c <=? today + 7).

(** The sentence of the specification on the end of the year, as it is
    written: with today in late December, no contact whose birthday is dated
    in early January is returned. *)
Definition january_never_returned_in_december : Prop :=
  forall (y d y' d' : Z) (c : Contact.t) (s : store) (l : list Contact.t),
    25 <= d <= 31 -> 1 <= d' <= 7 ->
    Contact.birthday c = Date.ymd y' 1 d' ->
    fst (ContactRoutes.get_upcoming_birthdays (Date.ymd y 12 d) s) = Ok l ->
    ~ In c l.

(** [confirmed] never goes back: every user confirmed in [s] is confirmed
    in [s']. *)
Definition confirmed_le (s s' : store) : Prop :=
  forall uid, is_confirmed s uid = true -> is_confirmed s' uid = true.

(** A computation after which no confirmation has been lost, whatever the
    store it starts from. *)
Definition keeps_confirmed {A} (m : M A) : Prop :=
  forall s, confirmed_le s (after m s).

(** A computation that maintains the constraints of the schema. *)
Definition keeps_ok {A} (m : M A) : Prop :=
  forall s, store_ok s -> store_ok (after m s).

(** ** Sample data *)

Module Sample.

Definition auth : AuthService :=
  mkAuthService
    (fun p => "hashed:" ++ p)
    (fun p h => String.eqb ("hashed:" ++ p) h)
    (fun email => "access:" ++ email)
    (fun email => "refresh:" ++ email ++ "#2")
    (fun token =>
       if String.prefix "refresh:" token
       then Ok (String.substring 8 (String.length token - 10) token)
       else Raise (HTTPException HTTP_401_UNAUTHORIZED
                     "Could not validate credentials"))
    (fun token =>
       if String.prefix "confirm:" token
       then Ok (String.substring 8 (String.length token - 8) token)
       else Raise (HTTPException 422 "Invalid token for email verification")).

Definition gravatar : GravatarService :=
  fun email => Ok ("https://www.gravatar.com/avatar/" ++ email).

Definition alice : User.t :=
  User.mk 1 "alice" "alice@example.com" "hashed:secret1" None
          (Some "refresh:alice@example.com#1") true.

Definition bob : User.t :=
  User.mk 2 "bobby" "bob@example.com" "hashed:secret2" None None false.

Definition today : date := Date.ymd 2023 12 28.

(** Alice's contact, with a birthday on the second of January 2024. *)
Definition carol : Contact.t :=
  Contact.mk 1 "Carol" "Jones" "carol@example.com" "555-0101"
             (Date.ymd 2024 1 2) (Some (Date.ymd 2023 11 5))
             (Some (Date.ymd 2023 11 5)) (Some 1).

Definition db : store := mkStore [alice; bob] [carol] 3 2.

Definition dave_data : contact_data :=
  mk_contact_data "Dave" "Smith" "dave@example.com" "555-0102"
                  (Date.ymd 1990 6 15) (Some (Some (Date.ymd 2001 1 1)))
                  (Some None).

Definition contact_at (i : Z) (email : string) (b : date) : Contact.t :=
  Contact.mk i "First" "Last" email "555-0100" b None None (Some 2).

(** Bob's four contacts, with birthdays 0, 3, 7 and 8 days from [today]. *)
Definition c0 : Contact.t := contact_at 10 "c0@example.com" today.
Definition c3 : Contact.t := contact_at 11 "c3@example.com" (today + 3).
Definition c7 : Contact.t := contact_at 12 "c7@example.com" (today + 7).
Definition c8 : Contact.t := contact_at 13 "c8@example.com" (today + 8).

Definition db_offsets : store := mkStore [alice; bob] [c0; c3; c7; c8] 3 14.

Definition base_url : string := "http://localhost:8000/".

Definition erin : UserSchema.t :=
  UserSchema.mk "erin1" "erin@example.com" "pw1234".

Definition alice_again : UserSchema.t :=
  UserSchema.mk "alice2" "alice@example.com" "pw5678".

Definition form (email password : string) : OAuth2PasswordRequestForm.t :=
  OAuth2PasswordRequestForm.mk email password.

End Sample.

(** ** Runs, and relations between the store before and after *)

(** The store of a fresh database: no row, both sequences at their first
    value. *)
Definition empty_store : store := mkStore [] [] 1 1.

(** The store after a sequence of operations, each a request of its own,
    with its own session, on its own day. *)
Definition run (auth_service : AuthService) (gravatar : GravatarService)
    (ops : list (date * operation)) (s : store) : store :=
  fold_left (fun s op => exec auth_service gravatar (fst op) (snd op) s) ops s.

(** A computation whose final store is related by [R] to the store it
    starts from, whatever that is. *)
Definition preserves (R : store -> store -> Prop) {A} (m : M A) : Prop :=
  forall s, R s (after m s).

(** [u'] is the row of the same account as [u]: same identifier, username,
    email and password. *)
Definition same_account (u u' : User.t) : Prop :=
  User.id u' = User.id u /\ User.username u' = User.username u
  /\ User.email u' = User.email u /\ User.password u' = User.password u.

(** Every account of [s] is still an account of [s']. *)
Definition accounts_le (s s' : store) : Prop :=
  forall u, In u (users s) -> exists u', In u' (users s') /\ same_account u u'.

(** The operations of the contact repository and of the contact routes. *)
Definition is_contact_operation (op : operation) : bool :=
  match op with
  | Contacts_get_contacts _ | Contacts_get_contact _
  | Contacts_create_contact _ | Contacts_update_contact _
  | Contacts_remove_contact _ | Contacts_get_upcoming_birthdays _
  | Route_read_contacts _ _ _ | Route_get_all _ _ _ | Route_get_contact _ _
  | Route_create_contact _ _ | Route_update_contact _ _ _
  | Route_delete_contact _ _ | Route_get_upcoming_birthdays => true
  | _ => false
  end.

(** The operations that are there to read. *)
Definition is_query (op : operation) : bool :=
  match op with
  | Users_get_user_by_email _ | Auth_refresh_token' _
  | Contacts_get_contacts _ | Contacts_get_contact _
  | Contacts_get_upcoming_birthdays _
  | Route_read_contacts _ _ _ | Route_get_all _ _ _ | Route_get_contact _ _
  | Route_get_upcoming_birthdays => true
  | _ => false
  end.

(** The store is the same. *)
Definition unchanged (s s' : store) : Prop := s' = s.

(** The users table and its sequence are the same in both stores. *)
Definition same_users (s s' : store) : Prop :=
  users s' = users s /\ users_seq s' = users_seq s.

(** The contacts table and its sequence are the same in both stores. *)
Definition same_contacts (s s' : store) : Prop :=
  contacts s' = contacts s /\ contacts_seq s' = contacts_seq s.

(** ** More sample data *)

Module Scenario.

(** A lookup service that is down. *)
Definition gravatar_down : GravatarService := fun _ => Raise DBAPIError.

(** Bob's contact, next to Alice's Carol. *)
Definition dan : Contact.t :=
  Contact.mk 2 "Dan" "Brown" "dan@example.com" "555-0103"
             (Date.ymd 1985 3 9) (Some (Date.ymd 2023 10 1))
             (Some (Date.ymd 2023 10 1)) (Some 2).

Definition db : store :=
  mkStore [Sample.alice; Sample.bob] [Sample.carol; dan] 3 3.

Definition carol_update : ContactUpdateSchema.t :=
  ContactUpdateSchema.mk "Caroline" "Jones" "caroline@example.com" "555-0199"
                         (Date.ymd 1991 1 2) (Some Sample.today).

Definition dave : ContactSchema.t :=
  ContactSchema.mk "Dave" "Smith" "dave@example.com" "555-0102"
                   (Date.ymd 1990 6 15) (Some Sample.today).

(** An update payload that carries a date of its own. *)
Definition carol_data : contact_data :=
  mk_contact_data "Caroline" "Jones" "caroline@example.com" "555-0199"
                  (Date.ymd 1991 1 2) None (Some (Some (Date.ymd 1999 9 9))).

Definition history : list (date * operation) :=
  [(Sample.today, Auth_signup Sample.erin [] Sample.base_url);
   (Sample.today, Auth_confirmed_email "confirm:erin@example.com");
   (Sample.today + 1, Route_create_contact dave Sample.alice);
   (Sample.today + 2, Route_update_contact carol_update 1 Sample.alice);
   (Sample.today + 3, Contacts_remove_contact
                        [PyInt 2; PyNone; PySession; PyUser Sample.bob])].

End Scenario.

(** * Properties *)

(** ** Rows selected by a unique key *)

Section UniqueKey.

Context {A K : Type} (key : A -> K) (eqb : K -> K -> bool).
Hypothesis eqb_eq : forall a b, eqb a b = true <-> a = b.

Lemma filter_key_absent (k : K) (l : list A) :
  (forall x, In x l -> key x <> k) ->
  filter (fun x => eqb (key x) k) l = [].
Proof.
  induction l as [|a l IH]; intros Hno; simpl; [reflexivity|].
  destruct (eqb (key a) k) eqn:E.
  - apply eqb_eq in E. exfalso. apply (Hno a); [now left | exact E].
  - apply IH. intros x Hx. apply Hno. now right.
Qed.

Lemma filter_key_unique (l : list A) (u : A) :
  NoDup (map key l) -> In u l ->
  filter (fun x => eqb (key x) (key u)) l = [u].
Proof.
  induction l as [|a l IH]; intros Hnd Hin; [contradiction|].
  simpl in Hnd. inversion Hnd as [|? ? Hnotin Hnd']; subst.
  simpl. destruct Hin as [->|Hin].
  - assert (E : eqb (key u) (key u) = true) by now apply eqb_eq.
    rewrite E. f_equal. apply filter_key_absent.
    intros x Hx Heq. apply Hnotin. rewrite <- Heq. now apply in_map.
  - destruct (eqb (key a) (key u)) eqn:E.
    + apply eqb_eq in E. exfalso. apply Hnotin. rewrite E. now apply in_map.
    + now apply IH.
Qed.

Lemma filter_key_In (k : K) (l : list A) (u : A) :
  In u (filter (fun x => eqb (key x) k) l) -> In u l /\ key u = k.
Proof.
  intros H. apply filter_In in H. destruct H as [H1 H2].
  split; [exact H1 | now apply eqb_eq].
Qed.

End UniqueKey.

(** ** The user repository *)

Lemma get_user_by_email_found (s : store) (u : User.t) :
  store_ok s -> In u (users s) ->
  Users.get_user_by_email (User.email u) s = (Ok (Some u), s).
Proof.
  intros Hok Hin. unfold Users.get_user_by_email, bind, get_store, lift.
  rewrite (filter_key_unique User.email String.eqb String.eqb_eq);
    [reflexivity | apply (users_email_unique _ Hok) | exact Hin].
Qed.

Lemma get_user_by_email_absent (s : store) (email : string) :
  (forall u, In u (users s) -> User.email u <> email) ->
  Users.get_user_by_email email s = (Ok None, s).
Proof.
  intros Hno. unfold Users.get_user_by_email, bind, get_store, lift.
  now rewrite (filter_key_absent User.email String.eqb String.eqb_eq).
Qed.

(** Whatever the lookup answers, it answers from the table and leaves the
    store alone. *)
Lemma get_user_by_email_inv (s s' : store) (email : string) r :
  Users.get_user_by_email email s = (r, s') ->
  s' = s /\
  match r with
  | Ok (Some u) => In u (users s) /\ User.email u = email
  | Ok None => forall u, In u (users s) -> User.email u <> email
  | Raise e => e = MultipleResultsFound
  end.
Proof.
  unfold Users.get_user_by_email, bind, get_store, lift.
  intros H. injection H as <- <-. split; [reflexivity|].
  destruct (filter _ (users s)) as [|a [|b l]] eqn:E; simpl.
  - intros u Hin Heq.
    assert (Hf : In u (filter (fun u => String.eqb (User.email u) email)
                              (users s))).
    { apply filter_In. split; [exact Hin | now apply String.eqb_eq]. }
    rewrite E in Hf. contradiction.
  - apply (filter_key_In User.email String.eqb String.eqb_eq email).
    rewrite E. now left.
  - reflexivity.
Qed.

Lemma existsb_email_absent (s : store) (email : string) :
  (forall u, In u (users s) -> User.email u <> email) ->
  existsb (fun u => String.eqb (User.email u) email) (users s) = false.
Proof.
  intros Hno. destruct (existsb _ _) eqn:E; [|reflexivity].
  apply existsb_exists in E. destruct E as (u & Hin & Heq).
  apply String.eqb_eq in Heq. now elim (Hno u Hin).
Qed.


(** What a commit of a modified [User] object does to later lookups: the
    row of that user, and no other, carries the change. *)
Lemma update_user_row_lookup (s : store) (u : User.t) (f : User.t -> User.t) :
  store_ok s -> In u (users s) ->
  (forall x, User.email (f x) = User.email x) ->
  let s' := set_users s
              (map (fun x => if User.id x =? User.id u then f x else x)
                   (users s)) in
  Users.update_user_row u f s = (Ok tt, s')
  /\ Users.get_user_by_email (User.email u) s' = (Ok (Some (f u)), s')
  /\ (forall v, In v (users s) -> User.id v <> User.id u -> In v (users s')).
Proof.
  intros Hok Hin Hf s'. split; [reflexivity|]. split.
  - unfold Users.get_user_by_email, bind, get_store, lift. simpl.
    assert (E : filter (fun x => String.eqb (User.email x) (User.email u))
                  (map (fun x => if User.id x =? User.id u then f x else x)
                       (users s)) = [f u]).
    { pose proof (users_pk _ Hok) as Hpk.
      pose proof (users_email_unique _ Hok) as Hem.
      revert Hin Hpk Hem. generalize (users s) as l.
      induction l as [|a l IH]; intros Hin Hpk Hem; [contradiction|].
      simpl in Hpk, Hem.
      inversion Hpk as [|? ? Hid Hpk']; subst.
      inversion Hem as [|? ? Hemail Hem']; subst.
      simpl. destruct Hin as [->|Hin].
      - rewrite Z.eqb_refl, Hf, String.eqb_refl. f_equal.
        apply (filter_key_absent User.email String.eqb String.eqb_eq).
        intros x Hx. apply in_map_iff in Hx. destruct Hx as (y & <- & Hy).
        assert (Hy' : User.email y <> User.email u).
        { intros E. apply Hemail. rewrite <- E. now apply in_map. }
        destruct (User.id y =? User.id u); [rewrite Hf|]; exact Hy'.
      - assert (Ha : String.eqb
                       (User.email (if User.id a =? User.id u then f a else a))
                       (User.email u) = false).
        { apply String.eqb_neq. intros E. apply Hemail.
          replace (User.email a) with (User.email u).
          - now apply in_map.
          - rewrite <- E. destruct (User.id a =? User.id u);
              [now rewrite Hf | reflexivity]. }
        rewrite Ha. now apply IH. }
    rewrite E. reflexivity.
  - intros v Hv Hne. simpl. apply in_map_iff. exists v. split; [|exact Hv].
    destruct (User.id v =? User.id u) eqn:E; [|reflexivity].
    apply Z.eqb_eq in E. contradiction.
Qed.

(** ** The auth routes *)

Section AuthSpec.

Variable auth_service : AuthService.
Variable gravatar : GravatarService.

(** C5 (the code departs from the specification in its answer to a fresh
    signup).  Signup with an email that a stored user already has fails
    with Conflict (409) and leaves the store as it was.  Signup with a
    fresh email appends one user, whose password is the hash of the one
    supplied, and returns a dictionary with the keys "user" and "detail":
    that dictionary has none of the fields of the declared response model
    [UserResponseSchema], so the client is answered 500, not 201, after the
    user has been stored. *)
Theorem signup_conflict_or_invalid_response
    (body : UserSchema.t) (background_tasks : list task)
    (base_url : string) (s : store) :
  store_ok s ->
  let r := AuthRoutes.signup auth_service gravatar body background_tasks
             base_url s in
  ((exists u, In u (users s) /\ User.email u = UserSchema.email body) ->
     r = (Raise (HTTPException 409 "Account already exists"), s)
     /\ http_status AuthRoutes.signup_status_code signup_response_model
          (fst r) = 409)
  /\
  ((forall u, In u (users s) -> User.email u <> UserSchema.email body) ->
     exists new_user,
       r = (Ok (AuthRoutes.mk_signup_response new_user
                  "User successfully created",
                (background_tasks
                   ++ [send_email (UserSchema.email body)
                         (UserSchema.username body) base_url])%list),
            mkStore (users s ++ [new_user]) (contacts s)
                    (users_seq s + 1) (contacts_seq s))
       /\ User.email new_user = UserSchema.email body
       /\ User.username new_user = UserSchema.username body
       /\ User.password new_user
          = get_password_hash auth_service (UserSchema.password body)
       /\ User.confirmed new_user = false
       /\ User.refresh_token new_user = None
       /\ AuthRoutes.signup_status_code = 201
       /\ (forall response, signup_response_model response = false)
       /\ http_status AuthRoutes.signup_status_code signup_response_model
            (fst r) = 500).
Proof.
  intros Hok r. split.
  - intros (u & Hin & Hemail).
    assert (E : r = (Raise (HTTPException 409 "Account already exists"), s)).
    { unfold r, AuthRoutes.signup, bind.
      rewrite <- Hemail, (get_user_by_email_found s u Hok Hin).
      reflexivity. }
    rewrite E. split; reflexivity.
  - intros Hfresh.
    exists (User.mk (users_seq s) (UserSchema.username body)
              (UserSchema.email body)
              (get_password_hash auth_service (UserSchema.password body))
              (match gravatar (UserSchema.email body) with
               | Ok url => Some url
               | Raise _ => None
               end) None false).
    unfold r, AuthRoutes.signup, bind.
    rewrite (get_user_by_email_absent s _ Hfresh).
    unfold Users.create_user, Users.insert_user, bind, get_store. simpl.
    rewrite (existsb_email_absent s _ Hfresh). simpl. repeat split.
Qed.

(** C6. Login answers Unauthorized (401) when no stored user has the
    email, when the user is not confirmed, and when the password does not
    verify, each time without touching the store; in the one remaining case
    it returns the token pair it issued, and the row then stored for the
    user carries the new refresh token, its other columns as before.  It
    succeeds in that case only. *)
Theorem login_unauthorized_or_tokens
    (body : OAuth2PasswordRequestForm.t) (s : store) :
  store_ok s ->
  let email := OAuth2PasswordRequestForm.username body in
  let r := AuthRoutes.login auth_service body s in
  let verifies (u : User.t) :=
    verify_password auth_service (OAuth2PasswordRequestForm.password body)
      (User.password u) in
  ((forall u, In u (users s) -> User.email u <> email) ->
     r = (Raise (HTTPException 401 "Invalid email"), s))
  /\
  (forall u, In u (users s) -> User.email u = email ->
     (User.confirmed u = false ->
        r = (Raise (HTTPException 401 "Email not confirmed"), s))
     /\ (User.confirmed u = true -> verifies u = false ->
          r = (Raise (HTTPException 401 "Invalid password"), s))
     /\ (User.confirmed u = true -> verifies u = true ->
          let access := create_access_token auth_service email in
          let refresh := create_refresh_token auth_service email in
          fst r = Ok (TokenModel.mk access refresh "bearer")
          /\ Users.get_user_by_email email (snd r)
             = (Ok (Some (User.mk (User.id u) (User.username u) (User.email u)
                            (User.password u) (User.avatar u)
                            (Some refresh) (User.confirmed u))),
                snd r)))
  /\
  ((exists tokens, fst r = Ok tokens) <->
   (exists u, In u (users s) /\ User.email u = email
              /\ User.confirmed u = true /\ verifies u = true)).
Proof.
  intros Hok email r verifies.
  assert (Hcase : forall u, In u (users s) -> User.email u = email ->
            r = (if negb (User.confirmed u) then
                   raise (HTTPException 401 "Email not confirmed")
                 else if negb (verifies u) then
                   raise (HTTPException 401 "Invalid password")
                 else
                   Users.update_token u
                     (Some (create_refresh_token auth_service (User.email u))) ;;;
                   ret (TokenModel.mk
                          (create_access_token auth_service (User.email u))
                          (create_refresh_token auth_service (User.email u))
                          "bearer")) s).
  { intros u Hin He. unfold r, AuthRoutes.login, bind. fold email.
    rewrite <- He, (get_user_by_email_found s u Hok Hin). reflexivity. }
  assert (Hnone : (forall u, In u (users s) -> User.email u <> email) ->
                  r = (Raise (HTTPException 401 "Invalid email"), s)).
  { intros Hno. unfold r, AuthRoutes.login, bind. fold email.
    now rewrite (get_user_by_email_absent s _ Hno). }
  split; [exact Hnone|]. split.
  - intros u Hin He. rewrite (Hcase u Hin He). split; [|split].
    + intros ->. reflexivity.
    + intros -> ->. reflexivity.
    + intros Hc Hv access refresh. rewrite Hc, Hv. simpl. split.
      { unfold access, refresh. rewrite He. reflexivity. }
      destruct (update_user_row_lookup s u
                  (fun x => Users.set_refresh_token x
                     (Some (create_refresh_token auth_service (User.email u))))
                  Hok Hin) as (_ & Hlook & _); [reflexivity|].
      unfold bind, Users.update_token, refresh. simpl.
      rewrite <- He.
      cbv beta delta [Users.set_refresh_token] in Hlook.
      rewrite Hc in Hlook. exact Hlook.
  - split.
    + intros (tokens & Htok).
      destruct (Users.get_user_by_email email s) as [[[u|]|e] s1] eqn:Elook;
        pose proof (get_user_by_email_inv _ _ _ _ Elook) as (-> & Hinv).
      * destruct Hinv as (Hin & He). exists u.
        rewrite (Hcase u Hin He) in Htok.
        destruct (User.confirmed u); [|discriminate].
        destruct (verifies u); [|discriminate]. auto.
      * rewrite (Hnone Hinv) in Htok. discriminate.
      * unfold r, AuthRoutes.login, bind in Htok. fold email in Htok.
        rewrite Elook in Htok. discriminate.
    + intros (u & Hin & He & Hc & Hv). rewrite (Hcase u Hin He), Hc, Hv.
      simpl. eauto.
Qed.

(** What the refresh handler does once the token has been decoded and the
    user loaded. *)
Lemma refresh_token_loaded (token email : string) (u : User.t) (s : store) :
  store_ok s ->
  decode_refresh_token auth_service token = Ok email ->
  In u (users s) -> User.email u = email ->
  AuthRoutes.refresh_token auth_service token s
  = (if negb (option_string_eqb (User.refresh_token u) (Some token)) then
       Users.update_token u None ;;;
       raise (HTTPException 401 "Invalid refresh token")
     else
       Users.update_token u
         (Some (create_refresh_token auth_service email)) ;;;
       ret (TokenModel.mk (create_access_token auth_service email)
              (create_refresh_token auth_service email) "bearer")) s.
Proof.
  intros Hok Hdec Hin He. unfold AuthRoutes.refresh_token, bind, lift.
  rewrite Hdec, <- He, (get_user_by_email_found s u Hok Hin). reflexivity.
Qed.

Lemma option_string_eqb_eq (a b : option string) :
  option_string_eqb a b = true <-> a = b.
Proof.
  destruct a as [x|], b as [y|]; simpl; split; intros H;
    try discriminate; try reflexivity.
  - apply String.eqb_eq in H. now subst.
  - injection H as ->. apply String.eqb_refl.
Qed.

(** C7. When the bearer token decodes to the email of a stored user: a
    token other than the stored one makes the handler fail with
    Unauthorized (401), and the row then stored for the user has no refresh
    token; the stored one makes it return a new access/refresh pair, and
    the row then stored carries the new refresh token.  The other columns
    of the row are as before in both cases. *)
Theorem refresh_token_revokes_or_rotates
    (token email : string) (u : User.t) (s : store) :
  store_ok s ->
  decode_refresh_token auth_service token = Ok email ->
  In u (users s) -> User.email u = email ->
  let r := AuthRoutes.refresh_token auth_service token s in
  (User.refresh_token u <> Some token ->
     fst r = Raise (HTTPException 401 "Invalid refresh token")
     /\ Users.get_user_by_email email (snd r)
        = (Ok (Some (User.mk (User.id u) (User.username u) (User.email u)
                       (User.password u) (User.avatar u)
                       None (User.confirmed u))),
           snd r))
  /\
  (User.refresh_token u = Some token ->
     let access := create_access_token auth_service email in
     let refresh := create_refresh_token auth_service email in
     fst r = Ok (TokenModel.mk access refresh "bearer")
     /\ Users.get_user_by_email email (snd r)
        = (Ok (Some (User.mk (User.id u) (User.username u) (User.email u)
                       (User.password u) (User.avatar u)
                       (Some refresh) (User.confirmed u))),
           snd r)).
Proof.
  intros Hok Hdec Hin He r. unfold r. subst email.
  rewrite (refresh_token_loaded token _ u s Hok Hdec Hin eq_refl).
  split.
  - intros Hne.
    assert (E : option_string_eqb (User.refresh_token u) (Some token) = false).
    { destruct (option_string_eqb _ _) eqn:E; [|reflexivity].
      apply option_string_eqb_eq in E. contradiction. }
    rewrite E. simpl. split; [reflexivity|].
    destruct (update_user_row_lookup s u
                (fun x => Users.set_refresh_token x None) Hok Hin)
      as (_ & Hlook & _); [reflexivity|].
    unfold bind, Users.update_token. simpl. exact Hlook.
  - intros Heq.
    assert (E : option_string_eqb (User.refresh_token u) (Some token) = true)
      by now apply option_string_eqb_eq.
    rewrite E. simpl. split; [reflexivity|].
    destruct (update_user_row_lookup s u
                (fun x => Users.set_refresh_token x
                   (Some (create_refresh_token auth_service (User.email u))))
                Hok Hin)
      as (_ & Hlook & _); [reflexivity|].
    unfold bind, Users.update_token. simpl. exact Hlook.
Qed.

(** C10. When the token decodes to an email that no stored user has, the
    refresh handler fails on the attribute access to the absent user: the
    exception is not an Unauthorized response (the client sees 500) and the
    store is untouched.  So whenever the handler does answer with its
    "Invalid refresh token" error after a successful decoding, a user with
    the decoded email is stored. *)
Theorem refresh_token_needs_stored_user
    (token email : string) (s : store) :
  decode_refresh_token auth_service token = Ok email ->
  let r := AuthRoutes.refresh_token auth_service token s in
  ((forall u, In u (users s) -> User.email u <> email) ->
     r = (Raise AttributeError, s)
     /\ forall response_model, http_status 200 response_model (fst r) = 500)
  /\
  (fst r = Raise (HTTPException 401 "Invalid refresh token") ->
     exists u, In u (users s) /\ User.email u = email).
Proof.
  intros Hdec r. split.
  - intros Hno.
    assert (E : r = (Raise AttributeError, s)).
    { unfold r, AuthRoutes.refresh_token, bind, lift.
      now rewrite Hdec, (get_user_by_email_absent s _ Hno). }
    rewrite E. split; reflexivity.
  - unfold r, AuthRoutes.refresh_token, bind, lift. rewrite Hdec.
    destruct (Users.get_user_by_email email s) as [[[u|]|e] s1] eqn:Elook;
      pose proof (get_user_by_email_inv _ _ _ _ Elook) as (-> & Hinv).
    + intros _. exists u. exact Hinv.
    + simpl. discriminate.
    + simpl. subst e. discriminate.
Qed.

End AuthSpec.

(** ** Confirmation is never undone *)

Section KeepsConfirmed.

Context {A B : Type}.

Lemma keeps_ret (a : A) : keeps_confirmed (ret a).
Proof. intros s uid H. exact H. Qed.

Lemma keeps_raise (e : exn) : keeps_confirmed (@raise A e).
Proof. intros s uid H. exact H. Qed.

Lemma keeps_lift (r : result A) : keeps_confirmed (lift r).
Proof. intros s uid H. exact H. Qed.

Lemma keeps_bind (m : M A) (k : A -> M B) :
  keeps_confirmed m -> (forall a, keeps_confirmed (k a)) ->
  keeps_confirmed (bind m k).
Proof.
  intros Hm Hk s uid H. unfold after, bind.
  specialize (Hm s uid H). unfold after in Hm.
  destruct (m s) as [[a|e] s1]; simpl in *.
  - apply (Hk a s1 uid Hm).
  - exact Hm.
Qed.

(** A computation that reads the store and then either fails or replaces
    it by one that keeps the confirmations. *)
Lemma keeps_get_then (k : store -> M A) :
  (forall s, confirmed_le s (after (k s) s)) ->
  keeps_confirmed (bind get_store k).
Proof. intros Hk s uid H. apply (Hk s uid H). Qed.

End KeepsConfirmed.

Lemma same_users_confirmed_le (s s' : store) :
  users s' = users s -> confirmed_le s s'.
Proof. intros E uid H. unfold is_confirmed in *. now rewrite E. Qed.

Lemma keeps_get_user_by_email (email : string) :
  keeps_confirmed (Users.get_user_by_email email).
Proof.
  apply keeps_get_then. intros s. apply same_users_confirmed_le. reflexivity.
Qed.

Lemma keeps_insert_user (username email password : string)
    (avatar : option string) :
  keeps_confirmed (Users.insert_user username email password avatar).
Proof.
  apply keeps_get_then. intros s uid H. unfold after.
  destruct (existsb _ (users s)); simpl; [exact H|].
  unfold is_confirmed in *. simpl. rewrite existsb_app, H. reflexivity.
Qed.

Lemma keeps_update_user_row (user : User.t) (f : User.t -> User.t) :
  (forall x, User.id (f x) = User.id x) ->
  (forall x, User.confirmed x = true -> User.confirmed (f x) = true) ->
  keeps_confirmed (Users.update_user_row user f).
Proof.
  intros Hid Hconf. apply keeps_get_then. intros s uid H.
  unfold after, is_confirmed in *. simpl.
  apply existsb_exists in H. destruct H as (x & Hin & Hx).
  apply andb_true_iff in Hx. destruct Hx as [Hx1 Hx2].
  apply existsb_exists.
  exists (if User.id x =? User.id user then f x else x). split.
  - apply in_map_iff. now exists x.
  - destruct (User.id x =? User.id user).
    + now rewrite Hid, Hx1, (Hconf x Hx2).
    + now rewrite Hx1, Hx2.
Qed.

Lemma keeps_execute (db : pyval) (sq : Select.t) :
  keeps_confirmed (Select.execute db sq).
Proof.
  destruct db; try apply keeps_raise.
  apply keeps_get_then. intros s. apply same_users_confirmed_le. reflexivity.
Qed.

Lemma keeps_insert_contact (today : date) (b : ContactSchema.t)
    (owner : option Z) :
  keeps_confirmed (Contacts.insert_contact today b owner).
Proof.
  apply keeps_get_then. intros s. apply same_users_confirmed_le.
  unfold after. now destruct (existsb _ (contacts s)).
Qed.

Lemma keeps_update_contact_row (contact : Contact.t) :
  keeps_confirmed (Contacts.update_contact_row contact).
Proof.
  apply keeps_get_then. intros s. apply same_users_confirmed_le.
  unfold after. now destruct (existsb _ (contacts s)).
Qed.

Lemma keeps_delete_contact_row (contact : Contact.t) :
  keeps_confirmed (Contacts.delete_contact_row contact).
Proof.
  apply keeps_get_then. intros s. apply same_users_confirmed_le. reflexivity.
Qed.

Create HintDb keeps.
#[local] Hint Resolve keeps_get_user_by_email keeps_insert_user
  keeps_execute keeps_insert_contact keeps_update_contact_row
  keeps_delete_contact_row : keeps.

(** Walks a computation built from [bind], [match] and the leaves above. *)
Ltac keeps :=
  repeat
    (match goal with
     | |- keeps_confirmed (bind _ _) => apply keeps_bind; [|intros ?]
     | |- keeps_confirmed (ret _) => apply keeps_ret
     | |- keeps_confirmed (raise _) => apply keeps_raise
     | |- keeps_confirmed (lift _) => apply keeps_lift
     | |- keeps_confirmed (Users.update_user_row _ _) =>
         apply keeps_update_user_row;
         [intros ?; reflexivity | intros ? ?; simpl; auto]
     | |- keeps_confirmed (match ?x with _ => _ end) => destruct x
     | |- keeps_confirmed _ => solve [auto with keeps]
     end).

Section KeepsOperations.

Variable auth_service : AuthService.
Variable gravatar : GravatarService.
Variable today : date.

Lemma keeps_create_user body :
  keeps_confirmed (Users.create_user gravatar body).
Proof. unfold Users.create_user. keeps. Qed.

Lemma keeps_update_token user token :
  keeps_confirmed (Users.update_token user token).
Proof. unfold Users.update_token. keeps. Qed.

Lemma keeps_confirmed_email email :
  keeps_confirmed (Users.confirmed_email email).
Proof. unfold Users.confirmed_email. keeps. Qed.

Lemma keeps_update_avatar email url :
  keeps_confirmed (Users.update_avatar email url).
Proof. unfold Users.update_avatar. keeps. Qed.

#[local] Hint Resolve keeps_create_user keeps_update_token
  keeps_confirmed_email keeps_update_avatar : keeps.

Lemma keeps_every_operation (op : operation) (s : store) :
  confirmed_le s (exec auth_service gravatar today op s).
Proof.
  destruct op; unfold exec;
    match goal with |- confirmed_le _ (after ?m _) =>
      change (confirmed_le s (after m s));
      let H := fresh in assert (H : keeps_confirmed m); [|exact (H s)]
    end;
    try solve [auto with keeps].
  - unfold AuthRoutes.signup. keeps.
  - unfold AuthRoutes.login. keeps.
  - unfold AuthRoutes.refresh_token. keeps.
  - unfold AuthRoutes.refresh_token'. keeps.
  - unfold AuthRoutes.confirmed_email. keeps.
  - unfold call4, Contacts.get_contacts. keeps.
  - unfold call3, Contacts.get_contact. keeps.
  - unfold call3, Contacts.create_contact. keeps.
  - unfold call4, Contacts.update_contact. keeps.
  - unfold call4, Contacts.remove_contact. keeps.
  - unfold call1, Contacts.get_upcoming_birthdays. keeps.
  - unfold ContactRoutes.read_contacts, call4, Contacts.get_contacts. keeps.
  - unfold ContactRoutes.get_all, call4. keeps.
  - unfold ContactRoutes.get_contact, ContactRoutes.Path_ge_1, call3,
      Contacts.get_contact. keeps.
  - unfold ContactRoutes.create_contact, call3, Contacts.create_contact. keeps.
  - unfold ContactRoutes.update_contact, ContactRoutes.Path_ge_1, call4,
      Contacts.update_contact. keeps.
  - unfold ContactRoutes.delete_contact, ContactRoutes.Path_ge_1, call4.
    keeps.
  - unfold ContactRoutes.get_upcoming_birthdays, call1,
      Contacts.get_upcoming_birthdays. keeps.
Qed.

End KeepsOperations.

(** ** Email confirmation *)

(** C8. The confirmation handler: a token whose email no stored user has
    gives BadRequest (400) and changes nothing; for a user already
    confirmed it answers "already confirmed" and changes nothing; for an
    unconfirmed user it stores [confirmed = true], after which the same
    request answers "already confirmed" and changes nothing more.  And no
    operation of the repository or route layers takes a confirmation back:
    a user confirmed before any operation is confirmed after it. *)
Theorem confirmed_email_idempotent_monotone
    (auth_service : AuthService) (gravatar : GravatarService) (today : date)
    (token email : string) (s : store) :
  store_ok s ->
  get_email_from_token auth_service token = Ok email ->
  let r := AuthRoutes.confirmed_email auth_service token s in
  ((forall u, In u (users s) -> User.email u <> email) ->
     r = (Raise (HTTPException 400 "Verification error"), s))
  /\
  (forall u, In u (users s) -> User.email u = email ->
     (User.confirmed u = true ->
        r = (Ok "Your email is already confirmed", s))
     /\
     (User.confirmed u = false ->
        fst r = Ok "Email confirmed"
        /\ Users.get_user_by_email email (snd r)
           = (Ok (Some (Users.set_confirmed u true)), snd r)
        /\ AuthRoutes.confirmed_email auth_service token (snd r)
           = (Ok "Your email is already confirmed", snd r)))
  /\
  (forall (op : operation) (s0 : store) (uid : Z),
     is_confirmed s0 uid = true ->
     is_confirmed (exec auth_service gravatar today op s0) uid = true).
Proof.
  intros Hok Hdec r. split; [|split].
  - intros Hno. unfold r, AuthRoutes.confirmed_email, bind, lift.
    now rewrite Hdec, (get_user_by_email_absent s _ Hno).
  - intros u Hin He. subst email.
    assert (Hr : r = (if User.confirmed u
                      then ret "Your email is already confirmed"
                      else Users.confirmed_email (User.email u) ;;;
                           ret "Email confirmed") s).
    { unfold r, AuthRoutes.confirmed_email, bind, lift.
      now rewrite Hdec, (get_user_by_email_found s u Hok Hin). }
    rewrite Hr. split.
    + intros ->. reflexivity.
    + intros Hc. rewrite Hc.
      destruct (update_user_row_lookup s u
                  (fun x => Users.set_confirmed x true) Hok Hin)
        as (Hupd & Hlook & _); [reflexivity|].
      assert (Hrepo : Users.confirmed_email (User.email u) s
                      = (Ok tt,
                         set_users s
                           (map (fun x => if User.id x =? User.id u
                                          then Users.set_confirmed x true
                                          else x) (users s)))).
      { unfold Users.confirmed_email, bind.
        rewrite (get_user_by_email_found s u Hok Hin). exact Hupd. }
      unfold bind. rewrite Hrepo. simpl. split; [reflexivity|].
      split; [exact Hlook|].
      unfold AuthRoutes.confirmed_email, bind, lift. rewrite Hdec.
      simpl in Hlook. rewrite Hlook. reflexivity.
  - intros op s0 uid. apply keeps_every_operation.
Qed.

(** ** Dates *)

Lemma days_before_year_succ (y : Z) :
  Date.days_before_year (y + 1)
  = Date.days_before_year y + 365 + (if Date.is_leap y then 1 else 0).
Proof.
  unfold Date.days_before_year, Date.is_leap. cbv zeta.
  replace (y + 1 - 1) with y by lia.
  destruct (Z.eqb_spec (y mod 4) 0), (Z.eqb_spec (y mod 100) 0),
    (Z.eqb_spec (y mod 400) 0); simpl;
    Z.div_mod_to_equations; lia.
Qed.

Lemma days_before_year_mono (y y' : Z) :
  y' <= y -> Date.days_before_year y' <= Date.days_before_year y.
Proof.
  intros H. unfold Date.days_before_year. cbv zeta.
  Z.div_mod_to_equations. lia.
Qed.

(** The first of January is day one of its year and a day of December is
    at least day 335. *)
Lemma ymd_january (y d : Z) : Date.ymd y 1 d = Date.days_before_year y + d.
Proof. unfold Date.ymd, Date.days_before_month. simpl. lia. Qed.

Lemma ymd_december (y d : Z) :
  Date.ymd y 12 d
  = Date.days_before_year y + 334 + (if Date.is_leap y then 1 else 0) + d.
Proof.
  unfold Date.ymd, Date.days_before_month.
  change (nth (Z.to_nat (12 - 1)) Date.days_before_month_table 0) with 334.
  change (2 <? 12) with true. simpl andb.
  destruct (Date.is_leap y); lia.
Qed.

(** Seven days after the d-th of December, from the 25th on, is the
    (d - 24)-th of January of the next year. *)
Lemma december_plus_7 (y d : Z) :
  Date.add_days (Date.ymd y 12 d) 7 = Date.ymd (y + 1) 1 (d - 24).
Proof.
  unfold Date.add_days.
  rewrite ymd_january, ymd_december, days_before_year_succ.
  destruct (Date.is_leap y); lia.
Qed.

(** ** The contact repository, called as its signatures say *)

Lemma filter_andb {A} (p q : A -> bool) (l : list A) :
  filter (fun x => p x && q x) l = filter q (filter p l).
Proof.
  induction l as [|a l IH]; simpl; [reflexivity|].
  destruct (p a); simpl; [destruct (q a)|]; now rewrite IH.
Qed.

(** The rows [filter_by(id=cid, user=u)] selects. *)
Lemma select_by_id_and_user (cid : Z) (u : User.t) (s : store) :
  (sq <- lift (Select.filter_by Select.select_Contact
                 [(Select.kw_id, PyInt cid); (Select.kw_user, PyUser u)]) ;;
   Select.execute PySession sq) s
  = (Ok (filter (owned_by u)
           (filter (fun row => Contact.id row =? cid) (contacts s))), s).
Proof.
  unfold bind, lift, Select.execute, Select.run, get_store. simpl.
  unfold bind, lift. rewrite <- filter_andb. f_equal. f_equal.
  apply filter_ext.
  intros row. unfold owned_by. now rewrite andb_true_r.
Qed.

Lemma select_owned_contact (u : User.t) (c : Contact.t) (s : store) :
  store_ok s -> In c (contacts s) -> owned_by u c = true ->
  filter (owned_by u)
    (filter (fun row => Contact.id row =? Contact.id c) (contacts s)) = [c].
Proof.
  intros Hok Hin Hown.
  rewrite (filter_key_unique Contact.id Z.eqb Z.eqb_eq);
    [|apply (contacts_pk _ Hok) | exact Hin].
  simpl. now rewrite Hown.
Qed.

Lemma select_no_owned_contact (cid : Z) (u : User.t) (s : store) :
  (forall c, In c (contacts s) -> Contact.id c = cid -> owned_by u c = false) ->
  filter (owned_by u)
    (filter (fun row => Contact.id row =? cid) (contacts s)) = [].
Proof.
  intros Hno. rewrite <- filter_andb.
  induction (contacts s) as [|a l IH]; simpl; [reflexivity|].
  destruct (Z.eqb_spec (Contact.id a) cid) as [E|E]; simpl.
  - rewrite (Hno a (or_introl eq_refl) E). apply IH.
    intros c Hc. apply Hno. now right.
  - apply IH. intros c Hc. apply Hno. now right.
Qed.

(** [remove_contact], given its four arguments, deletes the caller's
    contact and returns it, and does nothing when the caller owns no
    contact with that identifier. *)
Lemma remove_contact_owned (body : pyval) (u : User.t) (c : Contact.t)
    (s : store) :
  store_ok s -> In c (contacts s) -> owned_by u c = true ->
  Contacts.remove_contact (PyInt (Contact.id c)) body PySession (PyUser u) s
  = (Ok (Some c),
     set_contacts s
       (filter (fun row => negb (Contact.id row =? Contact.id c))
               (contacts s))).
Proof.
  intros Hok Hin Hown. unfold Contacts.remove_contact.
  pose proof (select_by_id_and_user (Contact.id c) u s) as Hsel.
  unfold bind in *. destruct (lift _ s) as [[sq|e] s1]; [|discriminate].
  rewrite Hsel, (select_owned_contact u c s Hok Hin Hown). reflexivity.
Qed.

Lemma remove_contact_absent (cid : Z) (body : pyval) (u : User.t)
    (s : store) :
  (forall c, In c (contacts s) -> Contact.id c = cid -> owned_by u c = false) ->
  Contacts.remove_contact (PyInt cid) body PySession (PyUser u) s
  = (Ok None, s).
Proof.
  intros Hno. unfold Contacts.remove_contact.
  pose proof (select_by_id_and_user cid u s) as Hsel.
  unfold bind in *. destruct (lift _ s) as [[sq|e] s1]; [|discriminate].
  rewrite Hsel, (select_no_owned_contact cid u s Hno). reflexivity.
Qed.

(** [get_contacts], given (limit, offset, session, user), returns the page
    of the user's own contacts. *)
Lemma get_contacts_page (limit offset : Z) (u : User.t) (s : store) :
  0 <= limit -> 0 <= offset ->
  Contacts.get_contacts (PyInt limit) (PyInt offset) PySession (PyUser u) s
  = (Ok (firstn (Z.to_nat limit)
           (skipn (Z.to_nat offset) (filter (owned_by u) (contacts s)))), s).
Proof.
  intros Hl Ho.
  unfold Contacts.get_contacts, bind, lift, Select.execute, Select.run,
    get_store. simpl. unfold bind, lift, Select.page.
  destruct (Z.ltb_spec offset 0); [lia|].
  destruct (Z.ltb_spec limit 0); [lia|].
  unfold ret. f_equal. f_equal. f_equal. f_equal. apply filter_ext.
  intros row. unfold owned_by. now rewrite andb_true_r.
Qed.

(** The page holds contacts of the caller only. *)
Lemma get_contacts_owned (limit offset : Z) (u : User.t) (s : store)
    (page : list Contact.t) :
  Contacts.get_contacts (PyInt limit) (PyInt offset) PySession (PyUser u) s
  = (Ok page, s) ->
  0 <= limit -> 0 <= offset ->
  forall c, In c page -> In c (contacts s) /\ owned_by u c = true.
Proof.
  intros Hrun Hl Ho c Hc.
  rewrite (get_contacts_page limit offset u s Hl Ho) in Hrun.
  injection Hrun as <-.
  assert (Hskip : In c (skipn (Z.to_nat offset)
                          (filter (owned_by u) (contacts s)))).
  { rewrite <- (firstn_skipn (Z.to_nat limit) (skipn _ _)).
    apply in_or_app. now left. }
  assert (Hall : In c (filter (owned_by u) (contacts s))).
  { rewrite <- (firstn_skipn (Z.to_nat offset) (filter _ _)).
    apply in_or_app. now right. }
  now apply filter_In in Hall.
Qed.

(** ** The contact routes *)

(** C1 (the code departs from the specification).  [get_contact] of the
    repository passes [user=user] as a keyword to [where], which fails the
    call before any query is made: for every identifier and user the
    function raises and leaves the store as it was, with [TypeError] for
    every identifier that can be compared with the column (a mapped
    instance fails one step earlier, in the comparison, with
    [ArgumentError]); the handler, whose identifier is an integer, raises
    [TypeError] and never returns a contact nor a 404.  At the sample input
    the caller owns the contact asked for and still gets the exception
    (status 500). *)
Theorem get_contact_raises_TypeError :
  (forall (contact_id db user : pyval) (s : store),
     Contacts.get_contact contact_id db user s
     = (Raise (match contact_id with
               | PyUser _ => ArgumentError
               | _ => TypeError
               end), s))
  /\
  (forall (contact_id : Z) (user : User.t) (s : store),
     ContactRoutes.get_contact contact_id user s
     = (Raise (if 1 <=? contact_id then TypeError
               else ContactRoutes.RequestValidationError), s))
  /\
  (In Sample.carol (contacts Sample.db)
   /\ Contact.id Sample.carol = 1
   /\ owned_by Sample.alice Sample.carol = true
   /\ ContactRoutes.get_contact 1 Sample.alice Sample.db
      = (Raise TypeError, Sample.db)
   /\ forall response_model,
        http_status 200 response_model
          (fst (ContactRoutes.get_contact 1 Sample.alice Sample.db))
        = 500).
Proof.
  split; [|split].
  - intros contact_id db user s. now destruct contact_id.
  - intros contact_id user s.
    unfold ContactRoutes.get_contact, ContactRoutes.Path_ge_1, bind.
    now destruct (1 <=? contact_id).
  - repeat split. now left.
Qed.

(** C2 (the code departs from the specification).  [read_contacts] hands
    (skip, limit, current_user, db) to [get_contacts], whose parameters are
    (limit, offset, db, user): the session lands in [user] and the lookup
    by owner is refused with [ArgumentError], for every skip, limit and
    user; the second handler on the path calls [get_contacts] with one
    argument.  At the sample input the caller has one contact and gets no
    page. *)
Theorem read_contacts_raises_ArgumentError :
  (forall (skip limit : Z) (current_user : User.t) (s : store),
     ContactRoutes.read_contacts skip limit current_user s
     = (Raise ArgumentError, s))
  /\
  (forall (limit offset : Z) (user : User.t) (s : store),
     ContactRoutes.get_all limit offset user s = (Raise TypeError, s))
  /\
  (filter (owned_by Sample.alice) (contacts Sample.db) = [Sample.carol]
   /\ ContactRoutes.read_contacts 0 100 Sample.alice Sample.db
      = (Raise ArgumentError, Sample.db)
   /\ forall response_model,
        http_status 200 response_model
          (fst (ContactRoutes.read_contacts 0 100 Sample.alice Sample.db))
        = 500).
Proof.
  split; [|split]; try reflexivity. repeat split.
Qed.

(** C3 (the code departs from the specification).  [delete_contact] calls
    [remove_contact(contact_id, db, user)], three arguments for the four
    parameters (contact_id, body, db, user): the call raises [TypeError]
    for every identifier from 1 on and every user, nothing is deleted and
    no 404 is ever produced.  At the sample input the caller owns the
    contact, which is still stored afterwards. *)
Theorem delete_contact_raises_TypeError :
  (forall (contact_id : Z) (user : User.t) (s : store),
     ContactRoutes.delete_contact contact_id user s
     = (Raise (if 1 <=? contact_id then TypeError
               else ContactRoutes.RequestValidationError), s))
  /\
  (In Sample.carol (contacts Sample.db)
   /\ Contact.id Sample.carol = 1
   /\ owned_by Sample.alice Sample.carol = true
   /\ ContactRoutes.delete_contact 1 Sample.alice Sample.db
      = (Raise TypeError, Sample.db)
   /\ (forall response_model,
         http_status 200 response_model
           (fst (ContactRoutes.delete_contact 1 Sample.alice Sample.db))
         = 500)
   /\ Contacts.remove_contact (PyInt 1) PyNone PySession (PyUser Sample.alice)
        Sample.db
      = (Ok (Some Sample.carol), set_contacts Sample.db [])).
Proof.
  split.
  - intros contact_id user s.
    unfold ContactRoutes.delete_contact, ContactRoutes.Path_ge_1, bind.
    now destruct (1 <=? contact_id).
  - repeat split. now left.
Qed.

(** ** Upcoming birthdays *)

Lemma get_upcoming_birthdays_filter (today : date) (s : store) :
  ContactRoutes.get_upcoming_birthdays today s
  = (Ok (filter (in_window today) (contacts s)), s).
Proof.
  unfold ContactRoutes.get_upcoming_birthdays, call1,
    Contacts.get_upcoming_birthdays, bind, lift, Select.execute, Select.run,
    get_store. simpl. unfold bind, lift, ret.
  f_equal. f_equal. apply filter_ext. intros row.
  unfold in_window, Date.leb, Date.add_days. now rewrite andb_true_r.
Qed.

Lemma in_window_spec (today : date) (c : Contact.t) :
  in_window today c = true
  <-> today <= Contact.birthday c <= today + 7.
Proof.
  unfold in_window. rewrite andb_true_iff, !Z.leb_le. tauto.
Qed.

(** The handler applied to a store whose contacts are exactly [cs]. *)
Lemma get_upcoming_birthdays_of (today : date) (s : store)
    (cs : list Contact.t) :
  contacts s = cs ->
  fst (ContactRoutes.get_upcoming_birthdays today s)
  = Ok (filter (in_window today) cs).
Proof. intros <-. now rewrite get_upcoming_birthdays_filter. Qed.

(** C4, as the code has it.  The query returns exactly the stored contacts
    (whoever owns them) whose birthday lies between today and seven days
    later, both included; of birthdays 0, 3, 7 and 8 days from today it
    returns the first three.  The window is a range of calendar dates and
    runs over the end of the year: when today is the d-th of December,
    d >= 25, a birthday dated the first to the (d - 24)-th of January of
    the next year is returned, whereas one dated in January of today's year
    or of an earlier year is not. *)
Theorem get_upcoming_birthdays_window (today : date) (s : store) :
  let r := ContactRoutes.get_upcoming_birthdays today s in
  r = (Ok (filter (in_window today) (contacts s)), s)
  /\
  (forall c, In c (filter (in_window today) (contacts s))
             <-> In c (contacts s)
                 /\ today <= Contact.birthday c <= today + 7)
  /\
  (forall c0 c3 c7 c8,
     Contact.birthday c0 = today -> Contact.birthday c3 = today + 3 ->
     Contact.birthday c7 = today + 7 -> Contact.birthday c8 = today + 8 ->
     contacts s = [c0; c3; c7; c8] -> fst r = Ok [c0; c3; c7])
  /\
  (forall y d d' c,
     today = Date.ymd y 12 d -> 25 <= d <= 31 ->
     Contact.birthday c = Date.ymd (y + 1) 1 d' -> 1 <= d' <= d - 24 ->
     In c (contacts s) -> In c (filter (in_window today) (contacts s)))
  /\
  (forall y d y' d' c,
     today = Date.ymd y 12 d -> 1 <= d ->
     Contact.birthday c = Date.ymd y' 1 d' -> y' <= y -> d' <= 31 ->
     ~ In c (filter (in_window today) (contacts s))).
Proof.
  intros r. split; [apply get_upcoming_birthdays_filter|].
  split; [|split; [|split]].
  - intros c. rewrite filter_In, in_window_spec. tauto.
  - intros c0 c3 c7 c8 H0 H3 H7 H8 Hcs. unfold r.
    rewrite (get_upcoming_birthdays_of today s _ Hcs). simpl.
    unfold in_window. rewrite H0, H3, H7, H8.
    repeat match goal with
           | |- context [?a <=? ?b] =>
               destruct (Z.leb_spec a b); try lia
           end.
    reflexivity.
  - intros y d d' c Ht Hd Hb Hd' Hin. apply filter_In. split; [exact Hin|].
    apply in_window_spec. rewrite Hb, ymd_january.
    pose proof (december_plus_7 y d) as H7. unfold Date.add_days in H7.
    rewrite <- Ht, ymd_january in H7.
    rewrite Ht, ymd_december in *. rewrite days_before_year_succ in *.
    destruct (Date.is_leap y); lia.
  - intros y d y' d' c Ht Hd Hb Hy Hd' Hin. apply filter_In in Hin.
    destruct Hin as [_ Hw]. apply in_window_spec in Hw.
    rewrite Hb, ymd_january, Ht, ymd_december in Hw.
    pose proof (days_before_year_mono y y' Hy).
    destruct (Date.is_leap y); lia.
Qed.

(** C4, the sentence that fails: with today the 28th of December 2023, the
    stored contact whose birthday is dated the second of January 2024 is
    returned, so it is not true that a January birthday is never returned
    in late December. *)
Lemma january_birthday_returned_in_late_december :
  Sample.today = Date.ymd 2023 12 28
  /\ Contact.birthday Sample.carol = Date.ymd 2024 1 2
  /\ ContactRoutes.get_upcoming_birthdays Sample.today Sample.db
     = (Ok [Sample.carol], Sample.db)
  /\ ~ january_never_returned_in_december.
Proof.
  repeat split. intros H.
  apply (H 2023 28 2024 2 Sample.carol Sample.db [Sample.carol]);
    try lia; try reflexivity.
  now left.
Qed.

(** ** Server-side dates of the contact payloads *)

(** C9. A contact-creation payload the schema accepts yields a
    [ContactSchema] whose [created_date] is the day of construction,
    whatever [created_date] the caller supplied, and a [ContactUpdateSchema]
    gets its [update_date] the same way; the contact the create handler
    stores from such a body carries that day as its [created_date]. *)
Theorem created_date_is_construction_day
    (today insert_day : date) (data : contact_data) :
  (forall b, ContactSchema.init today data = inr b ->
             ContactSchema.created_date b = Some today)
  /\
  (forall supplied, data_created_date data = Some supplied ->
     exists b, ContactSchema.init today data = inr b)
  /\
  (forall b, ContactUpdateSchema.init today data = inr b ->
             ContactUpdateSchema.update_date b = Some today)
  /\
  (forall supplied, data_update_date data = Some supplied ->
     exists b, ContactUpdateSchema.init today data = inr b)
  /\
  (forall b user s,
     ContactSchema.init today data = inr b ->
     (forall c s',
        ContactRoutes.create_contact insert_day b user s = (Ok c, s') ->
        Contact.created_date c = Some today
        /\ contacts s' = (contacts s ++ [c])%list)
     /\
     ((forall row, In row (contacts s) ->
                  Contact.email row <> data_email data) ->
      exists c s',
        ContactRoutes.create_contact insert_day b user s = (Ok c, s'))).
Proof.
  split; [|split; [|split; [|split]]].
  - intros b. unfold ContactSchema.init.
    destruct (ContactSchema.validate data); [discriminate|].
    intros H. injection H as <-. reflexivity.
  - intros supplied H. unfold ContactSchema.init, ContactSchema.validate.
    rewrite H. eauto.
  - intros b. unfold ContactUpdateSchema.init.
    destruct (ContactUpdateSchema.validate data); [discriminate|].
    intros H. injection H as <-. reflexivity.
  - intros supplied H.
    unfold ContactUpdateSchema.init, ContactUpdateSchema.validate.
    rewrite H. eauto.
  - intros b user s Hb.
    unfold ContactSchema.init, ContactSchema.validate in Hb.
    destruct (data_created_date data); [|discriminate].
    injection Hb as <-.
    unfold ContactRoutes.create_contact, call3, Contacts.create_contact,
      Contacts.insert_contact, bind, lift, get_store. simpl.
    unfold bind.
    split.
    + intros c s'.
      destruct (existsb _ (contacts s)); simpl; [discriminate|].
      intros H. injection H as <- <-. split; reflexivity.
    + intros Hfresh.
      destruct (existsb _ (contacts s)) eqn:E; simpl.
      * apply existsb_exists in E. destruct E as (row & Hin & Heq).
        apply String.eqb_eq in Heq. now elim (Hfresh row Hin).
      * do 2 eexists. reflexivity.
Qed.

(** ** The constraints of the schema are maintained *)

Section KeepsOk.

Context {A B : Type}.

Lemma ok_ret (a : A) : keeps_ok (ret a).
Proof. intros s H. exact H. Qed.

Lemma ok_raise (e : exn) : keeps_ok (@raise A e).
Proof. intros s H. exact H. Qed.

Lemma ok_lift (r : result A) : keeps_ok (lift r).
Proof. intros s H. exact H. Qed.

Lemma ok_bind (m : M A) (k : A -> M B) :
  keeps_ok m -> (forall a, keeps_ok (k a)) -> keeps_ok (bind m k).
Proof.
  intros Hm Hk s H. unfold after, bind.
  specialize (Hm s H). unfold after in Hm.
  destruct (m s) as [[a|e] s1]; simpl in *.
  - apply (Hk a s1 Hm).
  - exact Hm.
Qed.

Lemma ok_get_then (k : store -> M A) :
  (forall s, store_ok s -> store_ok (after (k s) s)) ->
  keeps_ok (bind get_store k).
Proof. intros Hk s H. apply (Hk s H). Qed.

End KeepsOk.

Lemma NoDup_map_snoc {X K} (key : X -> K) (l : list X) (x : X) :
  NoDup (map key l) -> ~ In (key x) (map key l) ->
  NoDup (map key (l ++ [x])).
Proof.
  intros Hnd Hx. rewrite map_app. simpl.
  apply NoDup_app; [exact Hnd | repeat constructor; intros [] |].
  intros k Hk [<-|[]]. contradiction.
Qed.

Lemma NoDup_map_filter {X K} (key : X -> K) (p : X -> bool) (l : list X) :
  NoDup (map key l) -> NoDup (map key (filter p l)).
Proof.
  induction l as [|a l IH]; simpl; intros H; [constructor|].
  inversion H as [|? ? Hnotin Hnd]; subst.
  destruct (p a); simpl; [constructor|]; auto.
  intros Hin. apply Hnotin. apply in_map_iff in Hin.
  destruct Hin as (y & Hy & Hin). apply filter_In in Hin.
  rewrite <- Hy. apply in_map. tauto.
Qed.

Lemma ok_get_user_by_email (email : string) :
  keeps_ok (Users.get_user_by_email email).
Proof. apply ok_get_then. intros s H. exact H. Qed.

Lemma ok_insert_user (username email password : string)
    (avatar : option string) :
  keeps_ok (Users.insert_user username email password avatar).
Proof.
  apply ok_get_then. intros s Hok. unfold after.
  destruct (existsb _ (users s)) eqn:E; simpl; [exact Hok|].
  destruct Hok as [Hpk Hseq Hem Hcpk Hcseq Hcem].
  split; simpl; try assumption.
  - apply NoDup_map_snoc; [exact Hpk|]. simpl. intros Hin.
    apply in_map_iff in Hin. destruct Hin as (u & Hu & Hin).
    rewrite Forall_forall in Hseq. specialize (Hseq u Hin). lia.
  - apply Forall_app. split.
    + eapply Forall_impl; [|exact Hseq]. simpl. intros; lia.
    + repeat constructor. simpl. lia.
  - apply NoDup_map_snoc; [exact Hem|]. simpl. intros Hin.
    apply in_map_iff in Hin. destruct Hin as (u & Hu & Hin).
    assert (Ht : existsb (fun u => String.eqb (User.email u) email) (users s)
                 = true).
    { apply existsb_exists. exists u. split; [exact Hin|].
      now apply String.eqb_eq. }
    congruence.
Qed.

Lemma ok_update_user_row (user : User.t) (f : User.t -> User.t) :
  (forall x, User.id (f x) = User.id x) ->
  (forall x, User.email (f x) = User.email x) ->
  keeps_ok (Users.update_user_row user f).
Proof.
  intros Hid Hemail. apply ok_get_then. intros s Hok. unfold after. simpl.
  destruct Hok as [Hpk Hseq Hem Hcpk Hcseq Hcem].
  assert (Eid : map User.id
                  (map (fun u => if User.id u =? User.id user then f u else u)
                       (users s)) = map User.id (users s)).
  { rewrite map_map. apply map_ext. intros u.
    destruct (User.id u =? User.id user); [apply Hid | reflexivity]. }
  assert (Eem : map User.email
                  (map (fun u => if User.id u =? User.id user then f u else u)
                       (users s)) = map User.email (users s)).
  { rewrite map_map. apply map_ext. intros u.
    destruct (User.id u =? User.id user); [apply Hemail | reflexivity]. }
  split; simpl; try assumption.
  - now rewrite Eid.
  - apply Forall_map. eapply Forall_impl; [|exact Hseq]. simpl. intros u Hu.
    destruct (User.id u =? User.id user); [rewrite Hid|]; exact Hu.
  - now rewrite Eem.
Qed.

Lemma ok_execute (db : pyval) (sq : Select.t) :
  keeps_ok (Select.execute db sq).
Proof.
  destruct db; try apply ok_raise.
  apply ok_get_then. intros s H. exact H.
Qed.

Lemma ok_insert_contact (today : date) (b : ContactSchema.t)
    (owner : option Z) :
  keeps_ok (Contacts.insert_contact today b owner).
Proof.
  apply ok_get_then. intros s Hok. unfold after.
  destruct (existsb _ (contacts s)) eqn:E; simpl; [exact Hok|].
  destruct Hok as [Hpk Hseq Hem Hcpk Hcseq Hcem].
  split; simpl; try assumption.
  - apply NoDup_map_snoc; [exact Hcpk|]. simpl. intros Hin.
    apply in_map_iff in Hin. destruct Hin as (c & Hc & Hin).
    rewrite Forall_forall in Hcseq. specialize (Hcseq c Hin). lia.
  - apply Forall_app. split.
    + eapply Forall_impl; [|exact Hcseq]. simpl. intros; lia.
    + repeat constructor. simpl. lia.
  - apply NoDup_map_snoc; [exact Hcem|]. simpl. intros Hin.
    apply in_map_iff in Hin. destruct Hin as (c & Hc & Hin).
    assert (Ht : existsb (fun c => String.eqb (Contact.email c)
                                              (ContactSchema.email b))
                         (contacts s) = true).
    { apply existsb_exists. exists c. split; [exact Hin|].
      now apply String.eqb_eq. }
    congruence.
Qed.

(** Replacing the row of a primary key by a row with the same key and an
    email no other row has keeps the emails distinct. *)
Lemma NoDup_email_replace (contact : Contact.t) (l : list Contact.t) :
  NoDup (map Contact.id l) -> NoDup (map Contact.email l) ->
  (forall c, In c l -> Contact.id c <> Contact.id contact ->
             Contact.email c <> Contact.email contact) ->
  NoDup (map Contact.email
           (map (fun c => if Contact.id c =? Contact.id contact
                          then contact else c) l)).
Proof.
  induction l as [|a l IH]; intros Hid Hem Hother; simpl; [constructor|].
  simpl in Hid, Hem.
  inversion Hid as [|? ? Hida Hid']; subst.
  inversion Hem as [|? ? Hema Hem']; subst.
  assert (IH' := IH Hid' Hem' (fun c Hc => Hother c (or_intror Hc))).
  constructor; [|exact IH'].
  intros Hin. apply in_map_iff in Hin. destruct Hin as (x & Hx & Hin).
  apply in_map_iff in Hin. destruct Hin as (c & Hc & Hin). subst x.
  destruct (Z.eqb_spec (Contact.id a) (Contact.id contact)) as [Ea|Ea];
    destruct (Z.eqb_spec (Contact.id c) (Contact.id contact)) as [Ec|Ec].
  - apply Hida. rewrite Ea, <- Ec. now apply in_map.
  - now apply (Hother c (or_intror Hin) Ec).
  - apply (Hother a (or_introl eq_refl) Ea). now symmetry.
  - apply Hema. rewrite <- Hx. now apply in_map.
Qed.

Lemma ok_update_contact_row (contact : Contact.t) :
  keeps_ok (Contacts.update_contact_row contact).
Proof.
  apply ok_get_then. intros s Hok. unfold after.
  destruct (existsb _ (contacts s)) eqn:E; simpl; [exact Hok|].
  destruct Hok as [Hpk Hseq Hem Hcpk Hcseq Hcem].
  assert (Eid : map Contact.id
                  (map (fun c => if Contact.id c =? Contact.id contact
                                 then contact else c) (contacts s))
                = map Contact.id (contacts s)).
  { rewrite map_map. apply map_ext_in. intros c _.
    destruct (Z.eqb_spec (Contact.id c) (Contact.id contact));
      [now symmetry | reflexivity]. }
  split; simpl; try assumption.
  - now rewrite Eid.
  - apply Forall_map. rewrite Forall_forall in *. intros c Hc.
    specialize (Hcseq c Hc).
    destruct (Z.eqb_spec (Contact.id c) (Contact.id contact)) as [Ec|Ec];
      [rewrite <- Ec|]; exact Hcseq.
  - apply NoDup_email_replace; try assumption.
    intros c Hc Hne Heq.
    assert (Ht : existsb
                   (fun c => negb (Contact.id c =? Contact.id contact)
                             && String.eqb (Contact.email c)
                                           (Contact.email contact))
                   (contacts s) = true).
    { apply existsb_exists. exists c. split; [exact Hc|].
      apply andb_true_iff. split.
      - apply negb_true_iff. now apply Z.eqb_neq.
      - now apply String.eqb_eq. }
    congruence.
Qed.

Lemma ok_delete_contact_row (contact : Contact.t) :
  keeps_ok (Contacts.delete_contact_row contact).
Proof.
  apply ok_get_then. intros s Hok. unfold after. simpl.
  destruct Hok as [Hpk Hseq Hem Hcpk Hcseq Hcem].
  split; simpl; try assumption.
  - now apply NoDup_map_filter.
  - rewrite Forall_forall in *. intros c Hc. apply filter_In in Hc.
    apply Hcseq. tauto.
  - now apply NoDup_map_filter.
Qed.

#[local] Hint Resolve ok_get_user_by_email ok_insert_user ok_execute
  ok_insert_contact ok_update_contact_row ok_delete_contact_row : keeps.

Ltac keeps_ok :=
  repeat
    (match goal with
     | |- keeps_ok (bind _ _) => apply ok_bind; [|intros ?]
     | |- keeps_ok (ret _) => apply ok_ret
     | |- keeps_ok (raise _) => apply ok_raise
     | |- keeps_ok (lift _) => apply ok_lift
     | |- keeps_ok (Users.update_user_row _ _) =>
         apply ok_update_user_row; intros ?; reflexivity
     | |- keeps_ok (match ?x with _ => _ end) => destruct x
     | |- keeps_ok _ => solve [auto with keeps]
     end).

(** Every operation of the two layers takes a store that meets the
    constraints of the schema to one that meets them. *)
Lemma store_ok_every_operation
    (auth_service : AuthService) (gravatar : GravatarService) (today : date)
    (op : operation) (s : store) :
  store_ok s -> store_ok (exec auth_service gravatar today op s).
Proof.
  destruct op; unfold exec;
    match goal with |- _ -> store_ok (after ?m _) =>
      let H := fresh in assert (H : keeps_ok m); [|exact (H s)]
    end.
  - auto with keeps.
  - unfold Users.create_user. keeps_ok.
  - unfold Users.update_token. keeps_ok.
  - unfold Users.confirmed_email. keeps_ok.
  - unfold Users.update_avatar. keeps_ok.
  - unfold AuthRoutes.signup, Users.create_user. keeps_ok.
  - unfold AuthRoutes.login, Users.update_token. keeps_ok.
  - unfold AuthRoutes.refresh_token, Users.update_token. keeps_ok.
  - unfold AuthRoutes.refresh_token'. keeps_ok.
  - unfold AuthRoutes.confirmed_email, Users.confirmed_email. keeps_ok.
  - unfold call4, Contacts.get_contacts. keeps_ok.
  - unfold call3, Contacts.get_contact. keeps_ok.
  - unfold call3, Contacts.create_contact. keeps_ok.
  - unfold call4, Contacts.update_contact. keeps_ok.
  - unfold call4, Contacts.remove_contact. keeps_ok.
  - unfold call1, Contacts.get_upcoming_birthdays. keeps_ok.
  - unfold ContactRoutes.read_contacts, call4, Contacts.get_contacts. keeps_ok.
  - unfold ContactRoutes.get_all, call4. keeps_ok.
  - unfold ContactRoutes.get_contact, ContactRoutes.Path_ge_1, call3,
      Contacts.get_contact. keeps_ok.
  - unfold ContactRoutes.create_contact, call3, Contacts.create_contact.
    keeps_ok.
  - unfold ContactRoutes.update_contact, ContactRoutes.Path_ge_1, call4,
      Contacts.update_contact. keeps_ok.
  - unfold ContactRoutes.delete_contact, ContactRoutes.Path_ge_1, call4.
    keeps_ok.
  - unfold ContactRoutes.get_upcoming_birthdays, call1,
      Contacts.get_upcoming_birthdays. keeps_ok.
Qed.

(** * The theorems at work on the sample data *)

Lemma sample_db_ok : store_ok Sample.db.
Proof.
  split; simpl; repeat constructor; simpl; try lia;
    intuition (try discriminate; try lia).
Qed.

Lemma sample_users (P : User.t -> Prop) :
  P Sample.alice -> P Sample.bob ->
  forall u, In u (users Sample.db) -> P u.
Proof. intros Ha Hb u [<-|[<-|[]]]; assumption. Qed.

(** C5 on the sample store: Alice's address is taken; Erin's is not, she
    is stored and the answer is 500. *)
Lemma signup_conflict_or_invalid_response_witness :
  (AuthRoutes.signup Sample.auth Sample.gravatar Sample.alice_again []
     Sample.base_url Sample.db
   = (Raise (HTTPException 409 "Account already exists"), Sample.db))
  /\
  (exists new_user,
     fst (AuthRoutes.signup Sample.auth Sample.gravatar Sample.erin []
            Sample.base_url Sample.db)
     = Ok (AuthRoutes.mk_signup_response new_user "User successfully created",
           [send_email "erin@example.com" "erin1" Sample.base_url])
     /\ User.password new_user = "hashed:pw1234"
     /\ users (snd (AuthRoutes.signup Sample.auth Sample.gravatar Sample.erin
                      [] Sample.base_url Sample.db))
        = [Sample.alice; Sample.bob; new_user]
     /\ http_status 201 signup_response_model
          (fst (AuthRoutes.signup Sample.auth Sample.gravatar Sample.erin []
                  Sample.base_url Sample.db)) = 500).
Proof.
  split.
  - destruct (signup_conflict_or_invalid_response Sample.auth Sample.gravatar
                Sample.alice_again [] Sample.base_url Sample.db sample_db_ok)
      as [Hconflict _].
    apply Hconflict. exists Sample.alice. split; [now left | reflexivity].
  - destruct (signup_conflict_or_invalid_response Sample.auth Sample.gravatar
                Sample.erin [] Sample.base_url Sample.db sample_db_ok)
      as [_ Hstored].
    destruct Hstored as (new_user & E & _ & _ & Hpw & _ & _ & _ & _ & H500).
    + apply sample_users; discriminate.
    + exists new_user. split; [now rewrite E|]. split; [exact Hpw|].
      split; [now rewrite E | exact H500].
Defined.

(** C6 on the sample store: an unknown address, unconfirmed Bob, Alice with
    a wrong password, and Alice with the right one. *)
Lemma login_unauthorized_or_tokens_witness :
  AuthRoutes.login Sample.auth (Sample.form "nobody@example.com" "secret1")
    Sample.db
  = (Raise (HTTPException 401 "Invalid email"), Sample.db)
  /\
  AuthRoutes.login Sample.auth (Sample.form "bob@example.com" "secret2")
    Sample.db
  = (Raise (HTTPException 401 "Email not confirmed"), Sample.db)
  /\
  AuthRoutes.login Sample.auth (Sample.form "alice@example.com" "guess")
    Sample.db
  = (Raise (HTTPException 401 "Invalid password"), Sample.db)
  /\
  (fst (AuthRoutes.login Sample.auth
          (Sample.form "alice@example.com" "secret1") Sample.db)
   = Ok (TokenModel.mk "access:alice@example.com"
           "refresh:alice@example.com#2" "bearer")
   /\ Users.get_user_by_email "alice@example.com"
        (snd (AuthRoutes.login Sample.auth
                (Sample.form "alice@example.com" "secret1") Sample.db))
      = (Ok (Some (User.mk 1 "alice" "alice@example.com" "hashed:secret1"
                     None (Some "refresh:alice@example.com#2") true)),
         snd (AuthRoutes.login Sample.auth
                (Sample.form "alice@example.com" "secret1") Sample.db))).
Proof.
  split; [|split; [|split]].
  - apply (login_unauthorized_or_tokens Sample.auth
             (Sample.form "nobody@example.com" "secret1") Sample.db
             sample_db_ok).
    apply sample_users; discriminate.
  - apply (login_unauthorized_or_tokens Sample.auth
             (Sample.form "bob@example.com" "secret2") Sample.db
             sample_db_ok) with (u := Sample.bob);
      [right; now left | reflexivity | reflexivity].
  - apply (login_unauthorized_or_tokens Sample.auth
             (Sample.form "alice@example.com" "guess") Sample.db
             sample_db_ok) with (u := Sample.alice);
      [now left | reflexivity | reflexivity | reflexivity].
  - apply (login_unauthorized_or_tokens Sample.auth
             (Sample.form "alice@example.com" "secret1") Sample.db
             sample_db_ok) with (u := Sample.alice);
      [now left | reflexivity | reflexivity | reflexivity].
Defined.

(** C7 on the sample store: a stale token of Alice's revokes the stored
    one; the stored token is exchanged for a new pair. *)
Lemma refresh_token_revokes_or_rotates_witness :
  (fst (AuthRoutes.refresh_token Sample.auth "refresh:alice@example.com#0"
          Sample.db)
   = Raise (HTTPException 401 "Invalid refresh token")
   /\ Users.get_user_by_email "alice@example.com"
        (snd (AuthRoutes.refresh_token Sample.auth
                "refresh:alice@example.com#0" Sample.db))
      = (Ok (Some (User.mk 1 "alice" "alice@example.com" "hashed:secret1"
                     None None true)),
         snd (AuthRoutes.refresh_token Sample.auth
                "refresh:alice@example.com#0" Sample.db)))
  /\
  (fst (AuthRoutes.refresh_token Sample.auth "refresh:alice@example.com#1"
          Sample.db)
   = Ok (TokenModel.mk "access:alice@example.com"
           "refresh:alice@example.com#2" "bearer")
   /\ Users.get_user_by_email "alice@example.com"
        (snd (AuthRoutes.refresh_token Sample.auth
                "refresh:alice@example.com#1" Sample.db))
      = (Ok (Some (User.mk 1 "alice" "alice@example.com" "hashed:secret1"
                     None (Some "refresh:alice@example.com#2") true)),
         snd (AuthRoutes.refresh_token Sample.auth
                "refresh:alice@example.com#1" Sample.db))).
Proof.
  split.
  - apply (refresh_token_revokes_or_rotates Sample.auth
             "refresh:alice@example.com#0" "alice@example.com" Sample.alice
             Sample.db sample_db_ok eq_refl (or_introl eq_refl) eq_refl).
    discriminate.
  - apply (refresh_token_revokes_or_rotates Sample.auth
             "refresh:alice@example.com#1" "alice@example.com" Sample.alice
             Sample.db sample_db_ok eq_refl (or_introl eq_refl) eq_refl).
    reflexivity.
Defined.

(** C10 on the sample store: a well-formed token for an address nobody
    has. *)
Lemma refresh_token_needs_stored_user_witness :
  AuthRoutes.refresh_token Sample.auth "refresh:ghost@example.com#1" Sample.db
  = (Raise AttributeError, Sample.db)
  /\ forall response_model,
       http_status 200 response_model
         (fst (AuthRoutes.refresh_token Sample.auth
                 "refresh:ghost@example.com#1" Sample.db)) = 500.
Proof.
  apply (refresh_token_needs_stored_user Sample.auth
           "refresh:ghost@example.com#1" "ghost@example.com" Sample.db
           eq_refl).
  apply sample_users; discriminate.
Defined.

(** C8 on the sample store: an address nobody has, confirmed Alice,
    unconfirmed Bob confirmed once and then again, and Alice still
    confirmed after her refresh token is revoked. *)
Lemma confirmed_email_idempotent_monotone_witness :
  AuthRoutes.confirmed_email Sample.auth "confirm:ghost@example.com" Sample.db
  = (Raise (HTTPException 400 "Verification error"), Sample.db)
  /\
  AuthRoutes.confirmed_email Sample.auth "confirm:alice@example.com" Sample.db
  = (Ok "Your email is already confirmed", Sample.db)
  /\
  (fst (AuthRoutes.confirmed_email Sample.auth "confirm:bob@example.com"
          Sample.db) = Ok "Email confirmed"
   /\ Users.get_user_by_email "bob@example.com"
        (snd (AuthRoutes.confirmed_email Sample.auth "confirm:bob@example.com"
                Sample.db))
      = (Ok (Some (Users.set_confirmed Sample.bob true)),
         snd (AuthRoutes.confirmed_email Sample.auth "confirm:bob@example.com"
                Sample.db))
   /\ AuthRoutes.confirmed_email Sample.auth "confirm:bob@example.com"
        (snd (AuthRoutes.confirmed_email Sample.auth "confirm:bob@example.com"
                Sample.db))
      = (Ok "Your email is already confirmed",
         snd (AuthRoutes.confirmed_email Sample.auth "confirm:bob@example.com"
                Sample.db)))
  /\
  is_confirmed
    (exec Sample.auth Sample.gravatar Sample.today
       (Users_update_token Sample.alice None) Sample.db) 1 = true.
Proof.
  split; [|split; [|split]].
  - apply (confirmed_email_idempotent_monotone Sample.auth Sample.gravatar
             Sample.today "confirm:ghost@example.com" "ghost@example.com"
             Sample.db sample_db_ok eq_refl).
    apply sample_users; discriminate.
  - destruct (confirmed_email_idempotent_monotone Sample.auth Sample.gravatar
                Sample.today "confirm:alice@example.com" "alice@example.com"
                Sample.db sample_db_ok eq_refl) as (_ & Huser & _).
    destruct (Huser Sample.alice (or_introl eq_refl) eq_refl) as [Hyes _].
    exact (Hyes eq_refl).
  - destruct (confirmed_email_idempotent_monotone Sample.auth Sample.gravatar
                Sample.today "confirm:bob@example.com" "bob@example.com"
                Sample.db sample_db_ok eq_refl) as (_ & Huser & _).
    destruct (Huser Sample.bob (or_intror (or_introl eq_refl)) eq_refl)
      as [_ Hno].
    exact (Hno eq_refl).
  - apply (confirmed_email_idempotent_monotone Sample.auth Sample.gravatar
             Sample.today "confirm:bob@example.com" "bob@example.com"
             Sample.db sample_db_ok eq_refl).
    reflexivity.
Defined.

(** C9 on the sample data: Dave's payload carries 2001-01-01 as its
    [created_date]; the body built on [today] and the contact stored from
    it carry [today]. *)
Lemma created_date_is_construction_day_witness :
  exists b c s',
    ContactSchema.init Sample.today Sample.dave_data = inr b
    /\ data_created_date Sample.dave_data = Some (Some (Date.ymd 2001 1 1))
    /\ ContactSchema.created_date b = Some Sample.today
    /\ ContactRoutes.create_contact (Sample.today + 1) b Sample.alice Sample.db
       = (Ok c, s')
    /\ Contact.created_date c = Some Sample.today
    /\ contacts s' = [Sample.carol; c].
Proof.
  destruct (created_date_is_construction_day Sample.today (Sample.today + 1)
              Sample.dave_data) as (Hdate & Hacc & _ & _ & Hstored).
  destruct (Hacc _ eq_refl) as (b & Hb).
  destruct (Hstored b Sample.alice Sample.db Hb) as (Hc & Hex).
  destruct Hex as (c & s' & Hrun).
  - intros row [<-|[]]. discriminate.
  - exists b, c, s'. destruct (Hc c s' Hrun) as (Hcd & Hcs).
    repeat split; auto.
Defined.

(** C4 on the sample data: birthdays 0, 3, 7 and 8 days from [today], and
    Carol's on the second of January with [today] the 28th of December. *)
Lemma get_upcoming_birthdays_window_witness :
  fst (ContactRoutes.get_upcoming_birthdays Sample.today Sample.db_offsets)
  = Ok [Sample.c0; Sample.c3; Sample.c7]
  /\ In Sample.carol (filter (in_window Sample.today) (contacts Sample.db))
  /\ ~ In (Sample.contact_at 20 "jan@example.com" (Date.ymd 2023 1 2))
          (filter (in_window Sample.today)
             (contacts (set_contacts Sample.db
                [Sample.contact_at 20 "jan@example.com" (Date.ymd 2023 1 2)]))).
Proof.
  split; [|split].
  - apply (get_upcoming_birthdays_window Sample.today Sample.db_offsets)
      with (c8 := Sample.c8); reflexivity.
  - apply (get_upcoming_birthdays_window Sample.today Sample.db)
      with (y := 2023) (d := 28) (d' := 2);
      [reflexivity | lia | reflexivity | lia | now left].
  - apply (get_upcoming_birthdays_window Sample.today
             (set_contacts Sample.db
                [Sample.contact_at 20 "jan@example.com" (Date.ymd 2023 1 2)]))
      with (y := 2023) (d := 28) (y' := 2023) (d' := 2);
      [reflexivity | lia | reflexivity | lia | lia].
Defined.

(** * Further properties of the two layers *)

(** ** Lookups and writes of the user repository *)

(** X1. [get_user_by_email] never writes.  It answers None exactly when no
    stored user has the address, and, the emails of the table being
    distinct, it never fails and answers a user exactly when that user is
    stored under the address. *)
Theorem get_user_by_email_exact (email : string) (s : store) :
  after (Users.get_user_by_email email) s = s
  /\
  (fst (Users.get_user_by_email email s) = Ok None
   <-> forall u, In u (users s) -> User.email u <> email)
  /\
  (store_ok s ->
   (exists r, fst (Users.get_user_by_email email s) = Ok r)
   /\ forall u, fst (Users.get_user_by_email email s) = Ok (Some u)
                <-> In u (users s) /\ User.email u = email).
Proof.
  destruct (Users.get_user_by_email email s) as [r s1] eqn:E.
  pose proof (get_user_by_email_inv _ _ _ _ E) as (-> & Hinv).
  unfold after. rewrite E. simpl. split; [reflexivity|]. split; [split|].
  - intros ->. exact Hinv.
  - intros Hno. rewrite (get_user_by_email_absent s _ Hno) in E.
    now injection E as <-.
  - intros Hok.
    assert (Hfound : forall u, In u (users s) -> User.email u = email ->
                               r = Ok (Some u)).
    { intros u Hin He. subst email.
      rewrite (get_user_by_email_found s u Hok Hin) in E.
      now injection E as <-. }
    split.
    + destruct r as [o|e]; [eauto|]. exfalso.
      unfold Users.get_user_by_email, bind, get_store, lift in E.
      destruct (filter _ (users s)) as [|x [|y l']] eqn:Ef;
        try discriminate.
      assert (Hx : In x (filter (fun u => String.eqb (User.email u) email)
                                (users s))) by (rewrite Ef; now left).
      apply (filter_key_In User.email String.eqb String.eqb_eq) in Hx.
      destruct Hx as [Hx He].
      specialize (Hfound x Hx He). discriminate.
    + intros u. split.
      * intros ->. exact Hinv.
      * intros [Hin He]. now apply Hfound.
Qed.

(** X2. [create_user] stores the body as it is given (the password is not
    hashed here) as an unconfirmed user without refresh token, under the
    next identifier; a failing avatar lookup only leaves the avatar empty.
    An address that is already stored makes the commit fail and nothing is
    written. *)
Theorem create_user_best_effort_avatar
    (gravatar : GravatarService) (body : UserSchema.t) (s : store) :
  let r := Users.create_user gravatar body s in
  ((exists u, In u (users s) /\ User.email u = UserSchema.email body) ->
     r = (Raise IntegrityError, s))
  /\
  ((forall u, In u (users s) -> User.email u <> UserSchema.email body) ->
     exists new_user,
       r = (Ok new_user,
            mkStore (users s ++ [new_user]) (contacts s)
                    (users_seq s + 1) (contacts_seq s))
       /\ User.id new_user = users_seq s
       /\ User.username new_user = UserSchema.username body
       /\ User.email new_user = UserSchema.email body
       /\ User.password new_user = UserSchema.password body
       /\ User.confirmed new_user = false
       /\ User.refresh_token new_user = None
       /\ (forall url, gravatar (UserSchema.email body) = Ok url ->
                       User.avatar new_user = Some url)
       /\ (forall e, gravatar (UserSchema.email body) = Raise e ->
                     User.avatar new_user = None)).
Proof.
  intros r. unfold r, Users.create_user, Users.insert_user, bind, get_store.
  split.
  - intros (u & Hin & He).
    assert (Ex : existsb (fun u => String.eqb (User.email u)
                                              (UserSchema.email body))
                         (users s) = true).
    { apply existsb_exists. exists u. split; [exact Hin|].
      now apply String.eqb_eq. }
    now rewrite Ex.
  - intros Hfresh. rewrite (existsb_email_absent s _ Hfresh).
    eexists. split; [reflexivity|]. simpl. repeat split.
    + intros url ->. reflexivity.
    + intros e ->. reflexivity.
Qed.



(** X5. [update_avatar] commits nothing: its [db.commit()] is not awaited,
    so when it returns or raises, the committed rows are the same as before,
    whatever the arguments.  For a stored user it returns the user object
    with the new address as its avatar and every other attribute as stored,
    the assignment being left pending on that object; on an address nobody
    has it fails on the attribute access. *)
Theorem update_avatar_commits_nothing (email url : string) (s : store) :
  after (Users.update_avatar email url) s = s
  /\
  ((forall u, In u (users s) -> User.email u <> email) ->
     fst (Users.update_avatar email url s) = Raise AttributeError)
  /\
  (store_ok s ->
   forall u, In u (users s) -> User.email u = email ->
     fst (Users.update_avatar email url s)
     = Ok (User.mk (User.id u) (User.username u) (User.email u)
             (User.password u) (Some url) (User.refresh_token u)
             (User.confirmed u))).
Proof.
  assert (Hsame : after (Users.update_avatar email url) s = s).
  { unfold after, Users.update_avatar, bind.
    destruct (Users.get_user_by_email email s) as [r s1] eqn:E.
    pose proof (get_user_by_email_inv _ _ _ _ E) as (-> & _).
    now destruct r as [[u|]|e]. }
  split; [exact Hsame|]. split.
  - intros Hno. unfold Users.update_avatar, bind.
    now rewrite (get_user_by_email_absent s _ Hno).
  - intros Hok u Hin He. subst email.
    unfold Users.update_avatar, bind.
    now rewrite (get_user_by_email_found s u Hok Hin).
Qed.

(** ** The contact repository and the routes that call it as declared *)

(** X6. [get_contacts], called with (limit, offset, session, user) and
    counts that are not negative, reads without writing and returns
    contacts of that user only, at most [limit] of them; with offset 0 and
    a limit that covers the user's contacts it returns every one of them,
    and with an offset that reaches past them it returns none. *)
Theorem get_contacts_page_of_owner
    (limit offset : Z) (u : User.t) (s : store) :
  0 <= limit -> 0 <= offset ->
  exists page,
    Contacts.get_contacts (PyInt limit) (PyInt offset) PySession (PyUser u) s
    = (Ok page, s)
    /\ (forall c, In c page -> In c (contacts s) /\ owned_by u c = true)
    /\ Z.of_nat (List.length page) <= limit
    /\ (offset = 0 ->
        Z.of_nat (List.length (filter (owned_by u) (contacts s))) <= limit ->
        forall c, In c (contacts s) -> owned_by u c = true -> In c page)
    /\ (Z.of_nat (List.length (filter (owned_by u) (contacts s))) <= offset ->
        page = []).
Proof.
  intros Hl Ho.
  exists (firstn (Z.to_nat limit)
            (skipn (Z.to_nat offset) (filter (owned_by u) (contacts s)))).
  split; [apply get_contacts_page; lia|].
  split; [|split; [|split]].
  - intros c Hc.
    apply (get_contacts_owned limit offset u s _
             (get_contacts_page limit offset u s Hl Ho) Hl Ho c Hc).
  - pose proof (firstn_le_length (Z.to_nat limit)
                  (skipn (Z.to_nat offset)
                     (filter (owned_by u) (contacts s)))). lia.
  - intros -> Hlen c Hc Hown. simpl. rewrite firstn_all2 by lia.
    apply filter_In. now split.
  - intros Hlen. rewrite skipn_all2 by lia. apply firstn_nil.
Qed.

(** What the create handler does, step by step. *)
Lemma create_contact_run (today : date) (body : ContactSchema.t)
    (user : User.t) (s : store) :
  ContactRoutes.create_contact today body user s
  = (if existsb (fun c => String.eqb (Contact.email c)
                                     (ContactSchema.email body)) (contacts s)
     then (Raise IntegrityError, s)
     else
       let c := Contact.mk (contacts_seq s)
                  (ContactSchema.first_name body) (ContactSchema.last_name body)
                  (ContactSchema.email body) (ContactSchema.phone_number body)
                  (ContactSchema.birthday body)
                  (match ContactSchema.created_date body with
                   | Some d => Some d
                   | None => Some today
                   end) (Some today)
                  (Some (User.id user)) in
       (Ok c, mkStore (users s) (contacts s ++ [c])
                      (users_seq s) (contacts_seq s + 1))).
Proof.
  unfold ContactRoutes.create_contact, call3, Contacts.create_contact,
    Contacts.insert_contact, bind, lift, get_store. simpl. unfold bind.
  now destruct (existsb _ (contacts s)).
Qed.

(** X7. The create handler stores the body as a contact of the caller,
    under the next identifier and with the day of the insert as
    [update_date], and as [created_date] too when the body holds none: the
    caller's listing then holds the new contact besides
    the old ones and the listing of every other user is as before.  An email that a stored
    contact already has, whoever owns it, makes the commit fail and nothing
    is written. *)
Theorem create_contact_belongs_to_caller
    (today : date) (body : ContactSchema.t) (user : User.t) (s : store) :
  let r := ContactRoutes.create_contact today body user s in
  ((exists c, In c (contacts s)
              /\ Contact.email c = ContactSchema.email body) ->
     r = (Raise IntegrityError, s))
  /\
  ((forall c, In c (contacts s) ->
              Contact.email c <> ContactSchema.email body) ->
     exists c,
       r = (Ok c, mkStore (users s) (contacts s ++ [c])
                          (users_seq s) (contacts_seq s + 1))
       /\ Contact.id c = contacts_seq s
       /\ Contact.user_id c = Some (User.id user)
       /\ Contact.first_name c = ContactSchema.first_name body
       /\ Contact.last_name c = ContactSchema.last_name body
       /\ Contact.email c = ContactSchema.email body
       /\ Contact.phone_number c = ContactSchema.phone_number body
       /\ Contact.birthday c = ContactSchema.birthday body
       /\ Contact.created_date c
          = match ContactSchema.created_date body with
            | Some d => Some d
            | None => Some today
            end
       /\ Contact.update_date c = Some today
       /\ (forall limit,
             Z.of_nat (List.length (filter (owned_by user) (contacts s)))
             < limit ->
             exists page,
               fst (Contacts.get_contacts (PyInt limit) (PyInt 0)
                      PySession (PyUser user) (snd r)) = Ok page
               /\ forall d, In d page
                            <-> d = c \/ (In d (contacts s)
                                          /\ owned_by user d = true))
       /\ (forall v limit offset,
             User.id v <> User.id user -> 0 <= limit -> 0 <= offset ->
             fst (Contacts.get_contacts (PyInt limit) (PyInt offset)
                    PySession (PyUser v) (snd r))
             = fst (Contacts.get_contacts (PyInt limit) (PyInt offset)
                      PySession (PyUser v) s))).
Proof.
  intros r. unfold r. rewrite create_contact_run. split.
  - intros (c & Hin & He).
    assert (Ex : existsb (fun c => String.eqb (Contact.email c)
                                              (ContactSchema.email body))
                         (contacts s) = true).
    { apply existsb_exists. exists c. split; [exact Hin|].
      now apply String.eqb_eq. }
    now rewrite Ex.
  - intros Hfresh.
    assert (Ex : existsb (fun c => String.eqb (Contact.email c)
                                              (ContactSchema.email body))
                         (contacts s) = false).
    { destruct (existsb _ _) eqn:E; [|reflexivity].
      apply existsb_exists in E. destruct E as (c & Hin & He).
      apply String.eqb_eq in He. now elim (Hfresh c Hin). }
    rewrite Ex. cbv zeta. eexists. split; [reflexivity|].
    simpl. repeat split.
    + intros limit Hl. rewrite get_contacts_page by lia. simpl.
      rewrite filter_app. simpl. unfold owned_by at 2. simpl.
      rewrite Z.eqb_refl. eexists. split; [reflexivity|].
      intros d. rewrite firstn_all2.
      * rewrite in_app_iff, filter_In. simpl. intuition.
      * rewrite length_app. simpl. lia.
    + intros v limit offset Hv Hl Ho. rewrite !get_contacts_page by lia.
      simpl. rewrite filter_app. simpl. unfold owned_by at 2. simpl.
      destruct (Z.eqb_spec (User.id user) (User.id v)) as [E|E];
        [now elim Hv|]. now rewrite app_nil_r.
Qed.

(** What the update handler does once its argument has passed the path
    constraint. *)
Lemma update_contact_run (body : ContactUpdateSchema.t) (cid : Z)
    (user : User.t) (s : store) :
  1 <= cid ->
  ContactRoutes.update_contact body cid user s
  = match filter (owned_by user)
            (filter (fun row => Contact.id row =? cid) (contacts s)) with
    | [] => (Raise ContactRoutes.NOT_FOUND, s)
    | [c] =>
        (Contacts.update_contact_row (Contacts.apply_update c body) ;;;
         ret (Contacts.apply_update c body)) s
    | _ :: _ :: _ => (Raise MultipleResultsFound, s)
    end.
Proof.
  intros Hge.
  unfold ContactRoutes.update_contact, ContactRoutes.Path_ge_1.
  destruct (Z.leb_spec 1 cid); [|lia].
  unfold call4, Contacts.update_contact.
  pose proof (select_by_id_and_user cid user s) as Hsel.
  unfold bind, ret in *. destruct (lift _ s) as [[sq|e] s1]; [|discriminate].
  rewrite Hsel.
  destruct (filter (owned_by user) _) as [|c [|d l]]; simpl; try reflexivity.
  unfold bind, ret.
  now destruct (Contacts.update_contact_row (Contacts.apply_update c body) s)
    as [[[]|e] s2].
Qed.

Lemma update_contact_row_run (contact : Contact.t) (s : store) :
  Contacts.update_contact_row contact s
  = if existsb (fun c => negb (Contact.id c =? Contact.id contact)
                         && String.eqb (Contact.email c)
                                       (Contact.email contact))
               (contacts s)
    then (Raise IntegrityError, s)
    else (Ok tt,
          set_contacts s
            (map (fun c => if Contact.id c =? Contact.id contact
                           then contact else c) (contacts s))).
Proof.
  unfold Contacts.update_contact_row, bind, get_store.
  now destruct (existsb _ (contacts s)).
Qed.

(** X8. The update handler answers 404 and writes nothing when the caller
    owns no contact with the identifier, be it that no contact has it or
    that the contact is another user's; an identifier below 1 is refused
    before the repository is called. *)
Theorem update_contact_not_found
    (body : ContactUpdateSchema.t) (cid : Z) (user : User.t) (s : store) :
  let r := ContactRoutes.update_contact body cid user s in
  (cid < 1 -> r = (Raise ContactRoutes.RequestValidationError, s))
  /\
  (1 <= cid ->
   (forall c, In c (contacts s) -> Contact.id c = cid ->
              owned_by user c = false) ->
   r = (Raise ContactRoutes.NOT_FOUND, s)
   /\ forall response_model, http_status 200 response_model (fst r) = 404).
Proof.
  intros r. split.
  - intros Hlt. unfold r, ContactRoutes.update_contact,
      ContactRoutes.Path_ge_1, bind.
    destruct (Z.leb_spec 1 cid); [lia | reflexivity].
  - intros Hge Hno. unfold r. rewrite update_contact_run by exact Hge.
    rewrite (select_no_owned_contact cid user s Hno). split; reflexivity.
Qed.

(** X9. For a contact the caller owns, the update handler replaces the
    five fields and the update date by those of the body and keeps the
    identifier, the creation date and the owner; every other contact and
    every user is as before and the constraints of the schema still hold.
    When another contact already has the new email the commit fails and
    nothing is written. *)
Theorem update_contact_replaces_fields
    (body : ContactUpdateSchema.t) (user : User.t) (c : Contact.t)
    (s : store) :
  store_ok s -> 1 <= Contact.id c -> In c (contacts s) ->
  owned_by user c = true ->
  let r := ContactRoutes.update_contact body (Contact.id c) user s in
  let c' := Contacts.apply_update c body in
  ((exists d, In d (contacts s) /\ Contact.id d <> Contact.id c
              /\ Contact.email d = ContactUpdateSchema.email body) ->
     r = (Raise IntegrityError, s))
  /\
  ((forall d, In d (contacts s) -> Contact.id d <> Contact.id c ->
              Contact.email d <> ContactUpdateSchema.email body) ->
     fst r = Ok c'
     /\ contacts (snd r)
        = map (fun d => if Contact.id d =? Contact.id c then c' else d)
              (contacts s)
     /\ In c' (contacts (snd r))
     /\ (forall d, In d (contacts s) -> Contact.id d <> Contact.id c ->
                   In d (contacts (snd r)))
     /\ users (snd r) = users s
     /\ store_ok (snd r))
  /\
  (Contact.id c' = Contact.id c
   /\ Contact.created_date c' = Contact.created_date c
   /\ Contact.user_id c' = Contact.user_id c
   /\ Contact.first_name c' = ContactUpdateSchema.first_name body
   /\ Contact.last_name c' = ContactUpdateSchema.last_name body
   /\ Contact.email c' = ContactUpdateSchema.email body
   /\ Contact.phone_number c' = ContactUpdateSchema.phone_number body
   /\ Contact.birthday c' = ContactUpdateSchema.birthday body
   /\ Contact.update_date c' = ContactUpdateSchema.update_date body).
Proof.
  intros Hok Hge Hin Hown r c'.
  assert (Hr : r = (Contacts.update_contact_row c' ;;; ret c') s).
  { unfold r. rewrite update_contact_run by exact Hge.
    now rewrite (select_owned_contact user c s Hok Hin Hown). }
  split; [|split; [|repeat split]].
  - intros (d & Hd & Hne & He). rewrite Hr.
    unfold bind. rewrite update_contact_row_run.
    assert (Ex : existsb
                   (fun d => negb (Contact.id d =? Contact.id c')
                             && String.eqb (Contact.email d) (Contact.email c'))
                   (contacts s) = true).
    { apply existsb_exists. exists d. split; [exact Hd|].
      apply andb_true_iff. split.
      - apply negb_true_iff. now apply Z.eqb_neq.
      - now apply String.eqb_eq. }
    now rewrite Ex.
  - intros Hfree.
    assert (Ex : existsb
                   (fun d => negb (Contact.id d =? Contact.id c')
                             && String.eqb (Contact.email d) (Contact.email c'))
                   (contacts s) = false).
    { destruct (existsb _ _) eqn:E; [|reflexivity].
      apply existsb_exists in E. destruct E as (d & Hd & Hb).
      apply andb_true_iff in Hb. destruct Hb as [Hne He].
      apply negb_true_iff, Z.eqb_neq in Hne. apply String.eqb_eq in He.
      now elim (Hfree d Hd Hne). }
    assert (Hrun : r = (Ok c',
                        set_contacts s
                          (map (fun d => if Contact.id d =? Contact.id c
                                         then c' else d) (contacts s)))).
    { rewrite Hr. unfold bind. rewrite update_contact_row_run.
      now rewrite Ex. }
    rewrite Hrun. simpl. split; [reflexivity|]. split; [reflexivity|].
    split; [|split; [|split; [reflexivity|]]].
    + apply in_map_iff. exists c. now rewrite Z.eqb_refl.
    + intros d Hd Hne. apply in_map_iff. exists d. split; [|exact Hd].
      destruct (Z.eqb_spec (Contact.id d) (Contact.id c)); [contradiction|].
      reflexivity.
    + pose proof (ok_update_contact_row c' s Hok) as Hok'.
      unfold after in Hok'. rewrite update_contact_row_run, Ex in Hok'.
      exact Hok'.
Qed.

(** X10. [remove_contact], called with its four arguments, deletes the
    contact with the identifier when the caller owns it and returns the row
    as it was; no other contact and no user is touched, and asking again
    finds nothing.  When the caller owns no such contact it returns None
    and writes nothing, whatever [body] holds. *)
Theorem remove_contact_deletes_own_only
    (cid : Z) (body : pyval) (u : User.t) (s : store) :
  store_ok s ->
  let r := Contacts.remove_contact (PyInt cid) body PySession (PyUser u) s in
  ((forall c, In c (contacts s) -> Contact.id c = cid ->
              owned_by u c = false) ->
     r = (Ok None, s))
  /\
  (forall c, In c (contacts s) -> Contact.id c = cid ->
             owned_by u c = true ->
     fst r = Ok (Some c)
     /\ (forall d, In d (contacts (snd r))
                   <-> In d (contacts s) /\ Contact.id d <> cid)
     /\ users (snd r) = users s
     /\ Contacts.remove_contact (PyInt cid) body PySession (PyUser u) (snd r)
        = (Ok None, snd r)).
Proof.
  intros Hok r. split.
  - intros Hno. apply remove_contact_absent. exact Hno.
  - intros c Hin Hid Hown. subst cid. unfold r.
    rewrite (remove_contact_owned body u c s Hok Hin Hown). simpl.
    assert (Hrows : forall d,
              In d (filter (fun row => negb (Contact.id row =? Contact.id c))
                           (contacts s))
              <-> In d (contacts s) /\ Contact.id d <> Contact.id c).
    { intros d. rewrite filter_In, negb_true_iff, Z.eqb_neq. tauto. }
    split; [reflexivity|]. split; [exact Hrows|]. split; [reflexivity|].
    apply remove_contact_absent. simpl. intros d Hd Heq.
    apply Hrows in Hd. now elim (proj2 Hd).
Qed.

(** ** What holds of every operation and along every run *)

Section Preserves.

Variable R : store -> store -> Prop.
Hypothesis R_refl : forall s, R s s.
Hypothesis R_trans : forall a b c, R a b -> R b c -> R a c.

Lemma pres_ret {A} (a : A) : preserves R (ret a).
Proof. intros s. apply R_refl. Qed.

Lemma pres_raise {A} (e : exn) : preserves R (@raise A e).
Proof. intros s. apply R_refl. Qed.

Lemma pres_lift {A} (r : result A) : preserves R (lift r).
Proof. intros s. apply R_refl. Qed.

Lemma pres_bind {A B} (m : M A) (k : A -> M B) :
  preserves R m -> (forall a, preserves R (k a)) -> preserves R (bind m k).
Proof.
  intros Hm Hk s. unfold after, bind.
  specialize (Hm s). unfold after in Hm.
  destruct (m s) as [[a|e] s1]; simpl in *; [|exact Hm].
  apply (R_trans _ _ _ Hm). apply (Hk a s1).
Qed.

Lemma pres_unchanged {A} (m : M A) :
  preserves unchanged m -> preserves R m.
Proof. intros H s. rewrite (H s). apply R_refl. Qed.

Lemma pres_run (step : date * operation -> store -> store)
    (ops : list (date * operation)) (s : store) :
  (forall op s, R s (step op s)) ->
  R s (fold_left (fun s op => step op s) ops s).
Proof.
  intros Hstep. revert s. induction ops as [|op ops IH]; intros s; simpl.
  - apply R_refl.
  - apply (R_trans _ _ _ (Hstep op s)). apply IH.
Qed.

End Preserves.

Lemma unchanged_refl (s : store) : unchanged s s.
Proof. reflexivity. Qed.

Lemma unchanged_trans (a b c : store) :
  unchanged a b -> unchanged b c -> unchanged a c.
Proof. unfold unchanged. congruence. Qed.

Lemma same_users_refl (s : store) : same_users s s.
Proof. split; reflexivity. Qed.

Lemma same_users_trans (a b c : store) :
  same_users a b -> same_users b c -> same_users a c.
Proof. unfold same_users. intros [] []. split; congruence. Qed.

Lemma same_contacts_refl (s : store) : same_contacts s s.
Proof. split; reflexivity. Qed.

Lemma same_contacts_trans (a b c : store) :
  same_contacts a b -> same_contacts b c -> same_contacts a c.
Proof. unfold same_contacts. intros [] []. split; congruence. Qed.

Lemma same_account_refl (u : User.t) : same_account u u.
Proof. repeat split. Qed.

Lemma accounts_le_refl (s : store) : accounts_le s s.
Proof. intros u Hu. exists u. split; [exact Hu | apply same_account_refl]. Qed.

Lemma accounts_le_trans (a b c : store) :
  accounts_le a b -> accounts_le b c -> accounts_le a c.
Proof.
  intros Hab Hbc u Hu.
  destruct (Hab u Hu) as (v & Hv & H1 & H2 & H3 & H4).
  destruct (Hbc v Hv) as (w & Hw & G1 & G2 & G3 & G4).
  exists w. split; [exact Hw|]. repeat split; congruence.
Qed.

Lemma same_users_accounts_le (s s' : store) :
  users s' = users s -> accounts_le s s'.
Proof.
  intros E u Hu. exists u. rewrite E.
  split; [exact Hu | apply same_account_refl].
Qed.

(** *** The reads *)

Lemma get_user_by_email_unchanged (email : string) :
  preserves unchanged (Users.get_user_by_email email).
Proof. intros s. reflexivity. Qed.

Lemma execute_unchanged (db : pyval) (sq : Select.t) :
  preserves unchanged (Select.execute db sq).
Proof. intros s. now destruct db. Qed.

(** *** The writes to the users *)

Lemma insert_user_same_contacts (username email password : string)
    (avatar : option string) :
  preserves same_contacts (Users.insert_user username email password avatar).
Proof.
  intros s. unfold after, Users.insert_user, bind, get_store.
  destruct (existsb _ (users s)); split; reflexivity.
Qed.

Lemma update_user_row_same_contacts (user : User.t) (f : User.t -> User.t) :
  preserves same_contacts (Users.update_user_row user f).
Proof. intros s. split; reflexivity. Qed.

Lemma insert_user_accounts (username email password : string)
    (avatar : option string) :
  preserves accounts_le (Users.insert_user username email password avatar).
Proof.
  intros s. unfold after, Users.insert_user, bind, get_store.
  destruct (existsb _ (users s)); simpl; [apply accounts_le_refl|].
  intros u Hu. exists u. simpl.
  split; [apply in_or_app; now left | apply same_account_refl].
Qed.

Lemma update_user_row_accounts (user : User.t) (f : User.t -> User.t) :
  (forall x, same_account x (f x)) ->
  preserves accounts_le (Users.update_user_row user f).
Proof.
  intros Hf s u Hu. unfold after. simpl.
  exists (if User.id u =? User.id user then f u else u). split.
  - apply in_map_iff. now exists u.
  - destruct (User.id u =? User.id user);
      [apply Hf | apply same_account_refl].
Qed.

(** *** The writes to the contacts *)

Lemma insert_contact_same_users (today : date) (b : ContactSchema.t)
    (owner : option Z) :
  preserves same_users (Contacts.insert_contact today b owner).
Proof.
  intros s. unfold after, Contacts.insert_contact, bind, get_store.
  destruct (existsb _ (contacts s)); split; reflexivity.
Qed.

Lemma update_contact_row_same_users (contact : Contact.t) :
  preserves same_users (Contacts.update_contact_row contact).
Proof.
  intros s. unfold after. rewrite update_contact_row_run.
  destruct (existsb _ (contacts s)); split; reflexivity.
Qed.

Lemma delete_contact_row_same_users (contact : Contact.t) :
  preserves same_users (Contacts.delete_contact_row contact).
Proof. intros s. split; reflexivity. Qed.

Lemma same_users_to_accounts {A} (m : M A) :
  preserves same_users m -> preserves accounts_le m.
Proof. intros H s. apply same_users_accounts_le. apply (H s). Qed.

Create HintDb pres.
#[local] Hint Resolve get_user_by_email_unchanged execute_unchanged
  insert_user_same_contacts update_user_row_same_contacts
  insert_user_accounts insert_contact_same_users
  update_contact_row_same_users delete_contact_row_same_users : pres.

(** Walks a computation for a relation with the given reflexivity and
    transitivity proofs; a leaf that only reads preserves every such
    relation. *)
Ltac walk refl trans :=
  repeat
    (match goal with
     | |- preserves _ (bind _ _) => apply (pres_bind _ trans); [|intros ?]
     | |- preserves _ (ret _) => apply (pres_ret _ refl)
     | |- preserves _ (raise _) => apply (pres_raise _ refl)
     | |- preserves _ (lift _) => apply (pres_lift _ refl)
     | |- preserves accounts_le (Users.update_user_row _ _) =>
         apply update_user_row_accounts; intros ?; repeat split
     | |- preserves _ (match ?x with _ => _ end) => destruct x
     | |- preserves _ _ => solve [auto with pres]
     | |- preserves _ _ =>
         solve [apply (pres_unchanged _ refl); auto with pres]
     | |- preserves accounts_le _ =>
         solve [apply same_users_to_accounts; auto with pres]
     end).

Ltac unfold_operations :=
  unfold AuthRoutes.signup, AuthRoutes.login, AuthRoutes.refresh_token,
    AuthRoutes.refresh_token', AuthRoutes.confirmed_email,
    Users.create_user, Users.update_token, Users.confirmed_email,
    Users.update_avatar,
    ContactRoutes.read_contacts, ContactRoutes.get_all,
    ContactRoutes.get_contact, ContactRoutes.create_contact,
    ContactRoutes.update_contact, ContactRoutes.delete_contact,
    ContactRoutes.get_upcoming_birthdays, ContactRoutes.Path_ge_1,
    call1, call3, call4,
    Contacts.get_contacts, Contacts.get_contact, Contacts.create_contact,
    Contacts.update_contact, Contacts.remove_contact,
    Contacts.get_upcoming_birthdays.

Section EveryOperation.

Variable auth_service : AuthService.
Variable gravatar : GravatarService.

Lemma accounts_every_operation (today : date) (op : operation) (s : store) :
  accounts_le s (exec auth_service gravatar today op s).
Proof.
  destruct op; unfold exec;
    match goal with |- accounts_le _ (after ?m _) =>
      let H := fresh in
      assert (H : preserves accounts_le m); [|exact (H s)]
    end;
    unfold_operations; walk accounts_le_refl accounts_le_trans.
Qed.

Lemma contact_operation_same_users (today : date) (op : operation)
    (s : store) :
  is_contact_operation op = true ->
  same_users s (exec auth_service gravatar today op s).
Proof.
  destruct op; simpl; try discriminate; intros _;
    match goal with |- same_users _ (after ?m _) =>
      let H := fresh in
      assert (H : preserves same_users m); [|exact (H s)]
    end;
    unfold_operations; walk same_users_refl same_users_trans.
Qed.

Lemma user_operation_same_contacts (today : date) (op : operation)
    (s : store) :
  is_contact_operation op = false ->
  same_contacts s (exec auth_service gravatar today op s).
Proof.
  destruct op; simpl; try discriminate; intros _;
    match goal with |- same_contacts _ (after ?m _) =>
      let H := fresh in
      assert (H : preserves same_contacts m); [|exact (H s)]
    end;
    unfold_operations; walk same_contacts_refl same_contacts_trans.
Qed.

Lemma query_unchanged (today : date) (op : operation) (s : store) :
  is_query op = true ->
  unchanged s (exec auth_service gravatar today op s).
Proof.
  destruct op; simpl; try discriminate; intros _;
    match goal with |- unchanged _ (after ?m _) =>
      let H := fresh in
      assert (H : preserves unchanged m); [|exact (H s)]
    end;
    unfold_operations; walk unchanged_refl unchanged_trans.
Qed.

(** X11. From the empty database, and from any store that meets them, the
    constraints of the schema (distinct primary keys below their sequence,
    distinct user emails, distinct contact emails) hold after every
    sequence of repository functions and handlers, whatever their
    arguments and outcomes. *)
Theorem constraints_hold_along_every_run (ops : list (date * operation)) :
  store_ok (run auth_service gravatar ops empty_store)
  /\ (forall s, store_ok s -> store_ok (run auth_service gravatar ops s)).
Proof.
  assert (Hrun : forall s, store_ok s ->
                           store_ok (run auth_service gravatar ops s)).
  { unfold run. induction ops as [|op ops IH]; intros s Hs; simpl.
    - exact Hs.
    - apply IH. now apply store_ok_every_operation. }
  split; [|exact Hrun].
  apply Hrun. split; simpl; constructor.
Qed.

(** X12. No sequence of operations deletes a user or changes a stored
    user's identifier, username, email or password: every account of the
    store a run starts from is an account of the store it ends in. *)
Theorem accounts_survive_every_run
    (ops : list (date * operation)) (s : store) :
  forall u, In u (users s) ->
  exists u', In u' (users (run auth_service gravatar ops s))
             /\ User.id u' = User.id u
             /\ User.username u' = User.username u
             /\ User.email u' = User.email u
             /\ User.password u' = User.password u.
Proof.
  apply (pres_run accounts_le accounts_le_refl accounts_le_trans
           (fun op s => exec auth_service gravatar (fst op) (snd op) s)).
  intros op s0. apply accounts_every_operation.
Qed.

(** X13. The two tables are written by separate halves of the program: an
    operation of the contact repository or of the contact routes leaves the
    users and their sequence as they are, every other operation leaves the
    contacts and their sequence as they are, and an operation that is there
    to read leaves the whole store as it is. *)
Theorem tables_are_written_separately
    (today : date) (op : operation) (s : store) :
  let s' := exec auth_service gravatar today op s in
  (is_contact_operation op = true ->
     users s' = users s /\ users_seq s' = users_seq s)
  /\
  (is_contact_operation op = false ->
     contacts s' = contacts s /\ contacts_seq s' = contacts_seq s)
  /\
  (is_query op = true -> s' = s).
Proof.
  intros s'. split; [|split].
  - apply contact_operation_same_users.
  - apply user_operation_same_contacts.
  - apply query_unchanged.
Qed.

End EveryOperation.

(** ** The auth routes in sequence *)

(** The three handlers once the lookup has answered. *)
Lemma login_found (auth_service : AuthService)
    (body : OAuth2PasswordRequestForm.t) (u : User.t) (s : store) :
  Users.get_user_by_email (OAuth2PasswordRequestForm.username body) s
  = (Ok (Some u), s) ->
  AuthRoutes.login auth_service body s
  = (if negb (User.confirmed u) then
       raise (HTTPException 401 "Email not confirmed")
     else if negb (verify_password auth_service
                     (OAuth2PasswordRequestForm.password body)
                     (User.password u)) then
       raise (HTTPException 401 "Invalid password")
     else
       Users.update_token u
         (Some (create_refresh_token auth_service (User.email u))) ;;;
       ret (TokenModel.mk (create_access_token auth_service (User.email u))
              (create_refresh_token auth_service (User.email u)) "bearer")) s.
Proof. intros H. unfold AuthRoutes.login, bind. now rewrite H. Qed.

Lemma confirmed_email_found (auth_service : AuthService)
    (token email : string) (u : User.t) (s : store) :
  get_email_from_token auth_service token = Ok email ->
  Users.get_user_by_email email s = (Ok (Some u), s) ->
  AuthRoutes.confirmed_email auth_service token s
  = (if User.confirmed u then ret "Your email is already confirmed"
     else Users.confirmed_email email ;;; ret "Email confirmed") s.
Proof.
  intros Hdec H. unfold AuthRoutes.confirmed_email, bind, lift.
  now rewrite Hdec, H.
Qed.

Lemma refresh_token_found (auth_service : AuthService)
    (token email : string) (u : User.t) (s : store) :
  decode_refresh_token auth_service token = Ok email ->
  Users.get_user_by_email email s = (Ok (Some u), s) ->
  AuthRoutes.refresh_token auth_service token s
  = (if negb (option_string_eqb (User.refresh_token u) (Some token)) then
       Users.update_token u None ;;;
       raise (HTTPException 401 "Invalid refresh token")
     else
       Users.update_token u
         (Some (create_refresh_token auth_service email)) ;;;
       ret (TokenModel.mk (create_access_token auth_service email)
              (create_refresh_token auth_service email) "bearer")) s.
Proof.
  intros Hdec H. unfold AuthRoutes.refresh_token, bind, lift.
  now rewrite Hdec, H.
Qed.

(** The store after [update_token], and the lookup in it. *)
Lemma update_token_run (u : User.t) (token : option string) (s : store) :
  store_ok s -> In u (users s) ->
  let s' := set_users s
              (map (fun x => if User.id x =? User.id u
                             then Users.set_refresh_token x token else x)
                   (users s)) in
  Users.update_token u token s = (Ok tt, s')
  /\ Users.get_user_by_email (User.email u) s'
     = (Ok (Some (Users.set_refresh_token u token)), s')
  /\ store_ok s' /\ In (Users.set_refresh_token u token) (users s').
Proof.
  intros Hok Hin s'.
  destruct (update_user_row_lookup s u
              (fun x => Users.set_refresh_token x token) Hok Hin)
    as (Hupd & Hlook & _); [reflexivity|].
  split; [exact Hupd|]. split; [exact Hlook|]. split.
  - apply (ok_update_user_row u (fun x => Users.set_refresh_token x token));
      auto.
  - apply in_map_iff. exists u. now rewrite Z.eqb_refl.
Qed.

(** X14. A user who has just signed up cannot log in: the login with the
    very password of the signup is refused with "Email not confirmed".
    Once the confirmation link for the address has been followed, the same
    login succeeds if the password verifies against the hash the signup
    stored, and is refused with "Invalid password" if it does not. *)
Theorem signup_confirm_login
    (at_signup at_confirm at_login : AuthService) (gravatar : GravatarService)
    (body : UserSchema.t) (background_tasks : list task)
    (base_url token : string) (s : store) :
  store_ok s ->
  (forall u, In u (users s) -> User.email u <> UserSchema.email body) ->
  get_email_from_token at_confirm token = Ok (UserSchema.email body) ->
  let form := OAuth2PasswordRequestForm.mk (UserSchema.email body)
                (UserSchema.password body) in
  let hash := get_password_hash at_signup (UserSchema.password body) in
  let s1 := after (AuthRoutes.signup at_signup gravatar body background_tasks
                     base_url) s in
  let s2 := after (AuthRoutes.confirmed_email at_confirm token) s1 in
  AuthRoutes.login at_login form s1
  = (Raise (HTTPException 401 "Email not confirmed"), s1)
  /\
  fst (AuthRoutes.confirmed_email at_confirm token s1) = Ok "Email confirmed"
  /\
  (verify_password at_login (UserSchema.password body) hash = true ->
     fst (AuthRoutes.login at_login form s2)
     = Ok (TokenModel.mk
             (create_access_token at_login (UserSchema.email body))
             (create_refresh_token at_login (UserSchema.email body))
             "bearer"))
  /\
  (verify_password at_login (UserSchema.password body) hash = false ->
     AuthRoutes.login at_login form s2
     = (Raise (HTTPException 401 "Invalid password"), s2)).
Proof.
  intros Hok Hfresh Hdec form hash s1 s2.
  set (new_user :=
         User.mk (users_seq s) (UserSchema.username body)
           (UserSchema.email body) hash
           (match gravatar (UserSchema.email body) with
            | Ok url => Some url
            | Raise _ => None
            end) None false).
  assert (Hs1 : s1 = mkStore (users s ++ [new_user]) (contacts s)
                             (users_seq s + 1) (contacts_seq s)).
  { unfold s1, after, AuthRoutes.signup, bind.
    rewrite (get_user_by_email_absent s _ Hfresh).
    unfold Users.create_user, Users.insert_user, bind, get_store. simpl.
    now rewrite (existsb_email_absent s _ Hfresh). }
  assert (Hok1 : store_ok s1).
  { apply (store_ok_every_operation at_signup gravatar 0
             (Auth_signup body background_tasks base_url) s Hok). }
  assert (Hin1 : In new_user (users s1)).
  { rewrite Hs1. simpl. apply in_or_app. right. now left. }
  pose proof (get_user_by_email_found s1 new_user Hok1 Hin1) as Hlook1.
  change (User.email new_user) with (UserSchema.email body) in Hlook1.
  assert (Hconf : AuthRoutes.confirmed_email at_confirm token s1
                  = (Ok "Email confirmed",
                     set_users s1
                       (map (fun x => if User.id x =? User.id new_user
                                      then Users.set_confirmed x true else x)
                            (users s1)))).
  { rewrite (confirmed_email_found at_confirm token _ new_user s1 Hdec Hlook1).
    simpl. unfold bind, Users.confirmed_email, bind. rewrite Hlook1.
    reflexivity. }
  destruct (update_user_row_lookup s1 new_user
              (fun x => Users.set_confirmed x true) Hok1 Hin1)
    as (_ & Hlook2 & _); [reflexivity|].
  change (User.email new_user) with (UserSchema.email body) in Hlook2.
  assert (Hs2 : s2 = set_users s1
                       (map (fun x => if User.id x =? User.id new_user
                                      then Users.set_confirmed x true else x)
                            (users s1))).
  { unfold s2, after. now rewrite Hconf. }
  rewrite <- Hs2 in Hlook2.
  split; [|split; [|split]].
  - rewrite (login_found at_login form new_user s1 Hlook1). reflexivity.
  - now rewrite Hconf.
  - intros Hv.
    rewrite (login_found at_login form _ s2 Hlook2). simpl.
    fold hash. rewrite Hv. reflexivity.
  - intros Hv.
    rewrite (login_found at_login form _ s2 Hlook2). simpl.
    fold hash. rewrite Hv. reflexivity.
Qed.

(** X15. The refresh token a successful login returns is the one the next
    refresh request is checked against: presented to the refresh handler
    (which decodes it to the user's address), it is exchanged for a new
    pair, and the new refresh token replaces it on the user. *)
Theorem login_then_refresh
    (at_login at_refresh : AuthService)
    (body : OAuth2PasswordRequestForm.t) (u : User.t) (s : store) :
  store_ok s -> In u (users s) ->
  User.email u = OAuth2PasswordRequestForm.username body ->
  User.confirmed u = true ->
  verify_password at_login (OAuth2PasswordRequestForm.password body)
    (User.password u) = true ->
  let issued := create_refresh_token at_login (User.email u) in
  decode_refresh_token at_refresh issued = Ok (User.email u) ->
  let s1 := after (AuthRoutes.login at_login body) s in
  let r := AuthRoutes.refresh_token at_refresh issued s1 in
  fst (AuthRoutes.login at_login body s)
  = Ok (TokenModel.mk (create_access_token at_login (User.email u)) issued
          "bearer")
  /\ fst r
     = Ok (TokenModel.mk (create_access_token at_refresh (User.email u))
             (create_refresh_token at_refresh (User.email u)) "bearer")
  /\ Users.get_user_by_email (User.email u) (snd r)
     = (Ok (Some (Users.set_refresh_token u
                    (Some (create_refresh_token at_refresh (User.email u))))),
        snd r).
Proof.
  intros Hok Hin He Hc Hv issued Hdec s1 r.
  pose proof (get_user_by_email_found s u Hok Hin) as Hlook.
  rewrite He in Hlook.
  destruct (update_token_run u (Some issued) s Hok Hin)
    as (Hupd & Hlook1 & Hok1 & Hin1).
  assert (Hlogin : AuthRoutes.login at_login body s
                   = (Ok (TokenModel.mk
                            (create_access_token at_login (User.email u))
                            issued "bearer"),
                      set_users s
                        (map (fun x => if User.id x =? User.id u
                                       then Users.set_refresh_token x
                                              (Some issued)
                                       else x) (users s)))).
  { rewrite (login_found at_login body u s Hlook), Hc, Hv. simpl.
    unfold bind. fold issued. now rewrite Hupd. }
  assert (Hs1 : s1 = set_users s
                       (map (fun x => if User.id x =? User.id u
                                      then Users.set_refresh_token x
                                             (Some issued)
                                      else x) (users s))).
  { unfold s1, after. now rewrite Hlogin. }
  rewrite <- Hs1 in Hlook1, Hok1, Hin1.
  split; [now rewrite Hlogin|].
  destruct (update_token_run (Users.set_refresh_token u (Some issued))
              (Some (create_refresh_token at_refresh (User.email u)))
              s1 Hok1 Hin1) as (Hupd2 & Hlook2 & _ & _).
  assert (Hm : option_string_eqb
                 (User.refresh_token
                    (Users.set_refresh_token u (Some issued)))
                 (Some issued) = true)
    by (simpl; apply String.eqb_refl).
  unfold r.
  rewrite (refresh_token_found at_refresh issued (User.email u) _ s1
             Hdec Hlook1), Hm.
  cbv [negb]. unfold bind. rewrite Hupd2. unfold ret, fst, snd.
  split; [reflexivity|]. exact Hlook2.
Qed.

(** Writing the same token a second time changes nothing. *)
Lemma update_token_again (u : User.t) (token : option string) (s : store) :
  let s' := set_users s
              (map (fun x => if User.id x =? User.id u
                             then Users.set_refresh_token x token else x)
                   (users s)) in
  Users.update_token (Users.set_refresh_token u token) token s' = (Ok tt, s').
Proof.
  unfold Users.update_token, Users.update_user_row, bind, get_store,
    put_store, set_users. simpl. f_equal. f_equal.
  rewrite map_map. apply map_ext. intros x.
  destruct (User.id x =? User.id u) eqn:E; simpl; rewrite E; reflexivity.
Qed.

(** X16. A refresh token that is not the stored one locks the user out of
    refreshing: the request is refused and clears the stored token, and
    after that every refresh request for the address is refused as well,
    the one presenting the token that was stored included, and leaves the
    store as it is. *)
Theorem stale_refresh_token_locks_out
    (at_first at_second : AuthService)
    (stale later : string) (u : User.t) (s : store) :
  store_ok s -> In u (users s) ->
  User.refresh_token u <> Some stale ->
  decode_refresh_token at_first stale = Ok (User.email u) ->
  decode_refresh_token at_second later = Ok (User.email u) ->
  let s1 := after (AuthRoutes.refresh_token at_first stale) s in
  fst (AuthRoutes.refresh_token at_first stale s)
  = Raise (HTTPException 401 "Invalid refresh token")
  /\ Users.get_user_by_email (User.email u) s1
     = (Ok (Some (Users.set_refresh_token u None)), s1)
  /\ AuthRoutes.refresh_token at_second later s1
     = (Raise (HTTPException 401 "Invalid refresh token"), s1).
Proof.
  intros Hok Hin Hne Hdec1 Hdec2 s1.
  pose proof (get_user_by_email_found s u Hok Hin) as Hlook.
  destruct (update_token_run u None s Hok Hin)
    as (Hupd & Hlook1 & Hok1 & Hin1).
  assert (Hmis : option_string_eqb (User.refresh_token u) (Some stale)
                 = false).
  { destruct (option_string_eqb _ _) eqn:E; [|reflexivity].
    apply option_string_eqb_eq in E. contradiction. }
  assert (Hrun : AuthRoutes.refresh_token at_first stale s
                 = (Raise (HTTPException 401 "Invalid refresh token"),
                    set_users s
                      (map (fun x => if User.id x =? User.id u
                                     then Users.set_refresh_token x None
                                     else x) (users s)))).
  { rewrite (refresh_token_found at_first stale _ u s Hdec1 Hlook), Hmis.
    simpl. unfold bind. now rewrite Hupd. }
  assert (Hs1 : s1 = set_users s
                       (map (fun x => if User.id x =? User.id u
                                      then Users.set_refresh_token x None
                                      else x) (users s))).
  { unfold s1, after. now rewrite Hrun. }
  rewrite <- Hs1 in Hlook1.
  split; [now rewrite Hrun|]. split; [exact Hlook1|].
  rewrite (refresh_token_found at_second later _ _ s1 Hdec2 Hlook1).
  change (option_string_eqb
            (User.refresh_token (Users.set_refresh_token u None))
            (Some later)) with false.
  cbv [negb]. unfold bind. rewrite Hs1.
  now rewrite (update_token_again u None s).
Qed.

(** ** Payloads and contacts through several requests *)

(** X17. An update whose body was built by [ContactUpdateSchema] on some
    day stores that day as the contact's [update_date], whatever
    [update_date] the caller supplied, and leaves the contact's
    [created_date] as it was. *)
Theorem update_date_is_construction_day
    (today : date) (data : contact_data) (body : ContactUpdateSchema.t)
    (user : User.t) (c : Contact.t) (s : store) :
  store_ok s -> 1 <= Contact.id c -> In c (contacts s) ->
  owned_by user c = true ->
  ContactUpdateSchema.init today data = inr body ->
  (forall d, In d (contacts s) -> Contact.id d <> Contact.id c ->
             Contact.email d <> data_email data) ->
  exists c',
    ContactRoutes.update_contact body (Contact.id c) user s
    = (Ok c',
       set_contacts s
         (map (fun d => if Contact.id d =? Contact.id c then c' else d)
              (contacts s)))
    /\ Contact.update_date c' = Some today
    /\ Contact.created_date c' = Contact.created_date c
    /\ Contact.first_name c' = data_first_name data
    /\ Contact.last_name c' = data_last_name data
    /\ Contact.email c' = data_email data
    /\ Contact.phone_number c' = data_phone_number data
    /\ Contact.birthday c' = data_birthday data.
Proof.
  intros Hok Hge Hin Hown Hbody Hfree.
  unfold ContactUpdateSchema.init, ContactUpdateSchema.validate in Hbody.
  destruct (data_update_date data) as [supplied|]; [|discriminate].
  injection Hbody as <-.
  exists (Contacts.apply_update c
            (ContactUpdateSchema.set_update_date
               (ContactUpdateSchema.mk (data_first_name data)
                  (data_last_name data) (data_email data)
                  (data_phone_number data) (data_birthday data) supplied)
               (Some today))).
  split; [|simpl; repeat split].
  rewrite update_contact_run by exact Hge.
  rewrite (select_owned_contact user c s Hok Hin Hown).
  unfold bind. rewrite update_contact_row_run.
  match goal with |- context [existsb ?p (contacts s)] =>
    assert (Ex : existsb p (contacts s) = false)
  end.
  { destruct (existsb _ _) eqn:E; [|reflexivity].
    apply existsb_exists in E. destruct E as (d & Hd & Hb).
    apply andb_true_iff in Hb. destruct Hb as [Hne He].
    apply negb_true_iff, Z.eqb_neq in Hne. apply String.eqb_eq in He.
    now elim (Hfree d Hd Hne). }
  rewrite Ex. reflexivity.
Qed.

(** X18. A contact one user has created is out of reach of the others:
    another user's update of its identifier is answered 404 and another
    user's removal finds nothing, both leaving the store as it is; the
    creator's removal returns the contact and brings the contacts table
    back to what it was before the creation. *)
Theorem created_contact_is_private
    (today : date) (body : ContactSchema.t) (update : ContactUpdateSchema.t)
    (anything : pyval) (creator other : User.t) (s : store) :
  store_ok s -> 1 <= contacts_seq s ->
  User.id other <> User.id creator ->
  (forall c, In c (contacts s) ->
             Contact.email c <> ContactSchema.email body) ->
  exists c s1,
    ContactRoutes.create_contact today body creator s = (Ok c, s1)
    /\ ContactRoutes.update_contact update (Contact.id c) other s1
       = (Raise ContactRoutes.NOT_FOUND, s1)
    /\ Contacts.remove_contact (PyInt (Contact.id c)) anything PySession
         (PyUser other) s1
       = (Ok None, s1)
    /\ fst (Contacts.remove_contact (PyInt (Contact.id c)) anything PySession
              (PyUser creator) s1) = Ok (Some c)
    /\ contacts (snd (Contacts.remove_contact (PyInt (Contact.id c)) anything
                        PySession (PyUser creator) s1))
       = contacts s.
Proof.
  intros Hok Hseq Hother Hfresh.
  pose proof (create_contact_run today body creator s) as Hrun.
  assert (Ex : existsb (fun c => String.eqb (Contact.email c)
                                            (ContactSchema.email body))
                       (contacts s) = false).
  { destruct (existsb _ _) eqn:E; [|reflexivity].
    apply existsb_exists in E. destruct E as (c & Hin & He).
    apply String.eqb_eq in He. now elim (Hfresh c Hin). }
  rewrite Ex in Hrun. cbv zeta in Hrun.
  set (c := Contact.mk (contacts_seq s)
              (ContactSchema.first_name body) (ContactSchema.last_name body)
              (ContactSchema.email body) (ContactSchema.phone_number body)
              (ContactSchema.birthday body)
              (match ContactSchema.created_date body with
               | Some d => Some d
               | None => Some today
               end)
              (Some today) (Some (User.id creator))) in *.
  set (s1 := mkStore (users s) (contacts s ++ [c]) (users_seq s)
                     (contacts_seq s + 1)) in *.
  assert (Hok1 : store_ok s1).
  { pose proof (ok_insert_contact today body (Some (User.id creator)) s Hok)
      as H.
    unfold after, Contacts.insert_contact, bind, get_store in H.
    now rewrite Ex in H. }
  assert (Hold : forall d, In d (contacts s) -> Contact.id d <> Contact.id c).
  { intros d Hd. pose proof (contacts_below_seq _ Hok) as Hb.
    rewrite Forall_forall in Hb. specialize (Hb d Hd). simpl. lia. }
  assert (Hin1 : In c (contacts s1)).
  { simpl. apply in_or_app. right. now left. }
  assert (Hforeign : forall d, In d (contacts s1) ->
                       Contact.id d = Contact.id c ->
                       owned_by other d = false).
  { intros d Hd Hid. simpl in Hd. apply in_app_or in Hd.
    destruct Hd as [Hd|[<-|[]]].
    - now elim (Hold d Hd).
    - unfold owned_by. simpl. now apply Z.eqb_neq, not_eq_sym. }
  assert (Hmine : owned_by creator c = true).
  { unfold owned_by. simpl. apply Z.eqb_refl. }
  exists c, s1. split; [exact Hrun|]. split; [|split; [|split]].
  - rewrite update_contact_run by (simpl; lia).
    now rewrite (select_no_owned_contact _ other s1 Hforeign).
  - now apply remove_contact_absent.
  - now rewrite (remove_contact_owned anything creator c s1 Hok1 Hin1 Hmine).
  - rewrite (remove_contact_owned anything creator c s1 Hok1 Hin1 Hmine).
    simpl. rewrite filter_app. simpl. rewrite Z.eqb_refl. simpl.
    rewrite app_nil_r. apply forallb_filter_id.
    apply forallb_forall. intros d Hd. apply negb_true_iff, Z.eqb_neq.
    now apply Hold.
Qed.

(** * The further properties at work on the sample data *)

Lemma scenario_db_ok : store_ok Scenario.db.
Proof.
  split; simpl; repeat constructor; simpl; try lia;
    intuition (try discriminate; try lia).
Qed.

Lemma scenario_contacts (P : Contact.t -> Prop) :
  P Sample.carol -> P Scenario.dan ->
  forall c, In c (contacts Scenario.db) -> P c.
Proof. intros Ha Hb c [<-|[<-|[]]]; assumption. Qed.

(** X1 on the sample store: Bob's address and one nobody has. *)
Lemma get_user_by_email_exact_witness :
  fst (Users.get_user_by_email "bob@example.com" Sample.db)
  = Ok (Some Sample.bob)
  /\ fst (Users.get_user_by_email "ghost@example.com" Sample.db) = Ok None.
Proof.
  split.
  - destruct (get_user_by_email_exact "bob@example.com" Sample.db)
      as (_ & _ & H).
    destruct (H sample_db_ok) as [_ Hiff]. apply Hiff.
    split; [right; now left | reflexivity].
  - destruct (get_user_by_email_exact "ghost@example.com" Sample.db)
      as (_ & Hnone & _).
    apply Hnone. apply sample_users; discriminate.
Defined.

(** X2 on the sample store: Erin signs up while the avatar lookup is down;
    Alice's address is taken. *)
Lemma create_user_best_effort_avatar_witness :
  (exists new_user,
     fst (Users.create_user Scenario.gravatar_down Sample.erin Sample.db)
     = Ok new_user
     /\ User.avatar new_user = None
     /\ User.password new_user = "pw1234"
     /\ User.confirmed new_user = false)
  /\ Users.create_user Sample.gravatar Sample.alice_again Sample.db
     = (Raise IntegrityError, Sample.db).
Proof.
  split.
  - destruct (create_user_best_effort_avatar Scenario.gravatar_down
                Sample.erin Sample.db) as [_ H].
    destruct H as (new_user & E & _ & _ & _ & Hpw & Hc & _ & _ & Hdown).
    + apply sample_users; discriminate.
    + exists new_user. rewrite E. repeat split; auto.
      apply (Hdown DBAPIError). reflexivity.
  - destruct (create_user_best_effort_avatar Sample.gravatar
                Sample.alice_again Sample.db) as [H _].
    apply H. exists Sample.alice. split; [now left | reflexivity].
Defined.



(** X5 on the sample store: Alice's new avatar is on the returned object
    and the committed rows are as before. *)
Lemma update_avatar_commits_nothing_witness :
  fst (Users.update_avatar "alice@example.com" "http://img/a.png" Sample.db)
  = Ok (User.mk 1 "alice" "alice@example.com" "hashed:secret1"
          (Some "http://img/a.png") (Some "refresh:alice@example.com#1") true)
  /\ after (Users.update_avatar "alice@example.com" "http://img/a.png")
       Sample.db = Sample.db
  /\ fst (Users.update_avatar "ghost@example.com" "http://img/a.png"
            Sample.db) = Raise AttributeError.
Proof.
  destruct (update_avatar_commits_nothing "alice@example.com"
              "http://img/a.png" Sample.db) as (Hsame & _ & H).
  split; [exact (H sample_db_ok Sample.alice (or_introl eq_refl) eq_refl)|].
  split; [exact Hsame|].
  destruct (update_avatar_commits_nothing "ghost@example.com"
              "http://img/a.png" Sample.db) as (_ & Hno & _).
  apply Hno. apply sample_users; discriminate.
Defined.

(** X6 on the sample store: the first two of Bob's four contacts, and
    the page past them. *)
Lemma get_contacts_page_of_owner_witness :
  (exists page,
     Contacts.get_contacts (PyInt 2) (PyInt 0) PySession (PyUser Sample.bob)
       Sample.db_offsets = (Ok page, Sample.db_offsets)
     /\ Z.of_nat (List.length page) <= 2
     /\ forall c, In c page -> owned_by Sample.bob c = true)
  /\
  (exists page,
     Contacts.get_contacts (PyInt 2) (PyInt 4) PySession (PyUser Sample.bob)
       Sample.db_offsets = (Ok page, Sample.db_offsets)
     /\ page = []).
Proof.
  split.
  - destruct (get_contacts_page_of_owner 2 0 Sample.bob Sample.db_offsets)
      as (page & H1 & H2 & H3 & _); [lia | lia |].
    exists page. split; [exact H1|]. split; [exact H3|].
    intros c Hc. apply (H2 c Hc).
  - destruct (get_contacts_page_of_owner 2 4 Sample.bob Sample.db_offsets)
      as (page & H1 & _ & _ & _ & H5); [lia | lia |].
    exists page. split; [exact H1|]. apply H5. simpl. lia.
Defined.

(** X7 on the sample store: Alice creates Dave; Carol's email is taken. *)
Lemma create_contact_belongs_to_caller_witness :
  (exists c,
     fst (ContactRoutes.create_contact Sample.today Scenario.dave
            Sample.alice Scenario.db) = Ok c
     /\ Contact.id c = 3
     /\ Contact.user_id c = Some 1
     /\ fst (Contacts.get_contacts (PyInt 10) (PyInt 0) PySession
               (PyUser Sample.bob)
               (snd (ContactRoutes.create_contact Sample.today Scenario.dave
                       Sample.alice Scenario.db)))
        = fst (Contacts.get_contacts (PyInt 10) (PyInt 0) PySession
                 (PyUser Sample.bob) Scenario.db))
  /\ ContactRoutes.create_contact Sample.today
       (ContactSchema.mk "C" "J" "carol@example.com" "1" 0 None)
       Sample.bob Scenario.db
     = (Raise IntegrityError, Scenario.db).
Proof.
  split.
  - destruct (create_contact_belongs_to_caller Sample.today Scenario.dave
                Sample.alice Scenario.db) as [_ H].
    destruct H as (c & E & Hid & Huser & _ & _ & _ & _ & _ & _ & _ & _ & Hv).
    + apply scenario_contacts; discriminate.
    + exists c. split; [now rewrite E|]. split; [exact Hid|].
      split; [exact Huser|].
      apply (Hv Sample.bob 10 0); [discriminate | lia | lia].
  - destruct (create_contact_belongs_to_caller Sample.today
                (ContactSchema.mk "C" "J" "carol@example.com" "1" 0 None)
                Sample.bob Scenario.db) as [H _].
    apply H. exists Sample.carol. split; [now left | reflexivity].
Defined.

(** X8 on the sample store: Bob updates Alice's contact; identifier 0. *)
Lemma update_contact_not_found_witness :
  ContactRoutes.update_contact Scenario.carol_update 1 Sample.bob Scenario.db
  = (Raise ContactRoutes.NOT_FOUND, Scenario.db)
  /\ ContactRoutes.update_contact Scenario.carol_update 0 Sample.bob
       Scenario.db
     = (Raise ContactRoutes.RequestValidationError, Scenario.db).
Proof.
  split.
  - destruct (update_contact_not_found Scenario.carol_update 1 Sample.bob
                Scenario.db) as [_ H].
    apply H; [lia|].
    apply (scenario_contacts
             (fun c => Contact.id c = 1 -> owned_by Sample.bob c = false));
      [reflexivity | discriminate].
  - destruct (update_contact_not_found Scenario.carol_update 0 Sample.bob
                Scenario.db) as [H _].
    apply H. lia.
Defined.

(** X9 on the sample store: Alice updates Carol; then with Dan's email. *)
Lemma update_contact_replaces_fields_witness :
  fst (ContactRoutes.update_contact Scenario.carol_update 1 Sample.alice
         Scenario.db)
  = Ok (Contacts.apply_update Sample.carol Scenario.carol_update)
  /\ In Scenario.dan
        (contacts (snd (ContactRoutes.update_contact Scenario.carol_update 1
                          Sample.alice Scenario.db)))
  /\ ContactRoutes.update_contact
       (ContactUpdateSchema.mk "C" "J" "dan@example.com" "1" 0 None) 1
       Sample.alice Scenario.db
     = (Raise IntegrityError, Scenario.db).
Proof.
  destruct (update_contact_replaces_fields Scenario.carol_update Sample.alice
              Sample.carol Scenario.db scenario_db_ok)
    as (_ & H & _); [simpl; lia | now left | reflexivity |].
  destruct H as (Hret & _ & _ & Hothers & _).
  { apply (scenario_contacts
             (fun d => Contact.id d <> Contact.id Sample.carol ->
                       Contact.email d
                       <> ContactUpdateSchema.email Scenario.carol_update));
      [intros E; now elim E | discriminate]. }
  split; [exact Hret|]. split.
  - apply Hothers; [right; now left | discriminate].
  - destruct (update_contact_replaces_fields
                (ContactUpdateSchema.mk "C" "J" "dan@example.com" "1" 0 None)
                Sample.alice Sample.carol Scenario.db scenario_db_ok)
      as (H & _); [simpl; lia | now left | reflexivity |].
    apply H. exists Scenario.dan.
    split; [right; now left | split; [discriminate | reflexivity]].
Defined.

(** X10 on the sample store: Bob and then Alice remove contact 1. *)
Lemma remove_contact_deletes_own_only_witness :
  Contacts.remove_contact (PyInt 1) PyNone PySession (PyUser Sample.bob)
    Scenario.db = (Ok None, Scenario.db)
  /\ fst (Contacts.remove_contact (PyInt 1) PyNone PySession
            (PyUser Sample.alice) Scenario.db) = Ok (Some Sample.carol)
  /\ In Scenario.dan
        (contacts (snd (Contacts.remove_contact (PyInt 1) PyNone PySession
                          (PyUser Sample.alice) Scenario.db))).
Proof.
  split.
  - destruct (remove_contact_deletes_own_only 1 PyNone Sample.bob
                Scenario.db scenario_db_ok) as [H _].
    apply H.
    apply (scenario_contacts
             (fun c => Contact.id c = 1 -> owned_by Sample.bob c = false));
      [reflexivity | discriminate].
  - destruct (remove_contact_deletes_own_only 1 PyNone Sample.alice
                Scenario.db scenario_db_ok) as [_ H].
    destruct (H Sample.carol (or_introl eq_refl) eq_refl eq_refl)
      as (Hret & Hrows & _).
    split; [exact Hret|].
    apply Hrows. split; [right; now left | discriminate].
Defined.

(** X11 on the sample data: the constraints after a signup, a confirmation,
    a creation, an update and a removal. *)
Lemma constraints_hold_along_every_run_witness :
  store_ok (run Sample.auth Sample.gravatar Scenario.history Scenario.db)
  /\ List.length (users (run Sample.auth Sample.gravatar Scenario.history
                           Scenario.db)) = 3%nat.
Proof.
  split; [|reflexivity].
  apply (constraints_hold_along_every_run Sample.auth Sample.gravatar
           Scenario.history).
  exact scenario_db_ok.
Defined.

(** X12 on the sample data: Bob after the same run. *)
Lemma accounts_survive_every_run_witness :
  exists u',
    In u' (users (run Sample.auth Sample.gravatar Scenario.history
                    Scenario.db))
    /\ User.id u' = 2
    /\ User.username u' = "bobby"
    /\ User.email u' = "bob@example.com"
    /\ User.password u' = "hashed:secret2".
Proof.
  apply (accounts_survive_every_run Sample.auth Sample.gravatar
           Scenario.history Scenario.db Sample.bob).
  right. now left.
Defined.

(** X13 on the sample data: a creation, a login and a query. *)
Lemma tables_are_written_separately_witness :
  users (exec Sample.auth Sample.gravatar Sample.today
           (Route_create_contact Scenario.dave Sample.alice) Scenario.db)
  = users Scenario.db
  /\ contacts (exec Sample.auth Sample.gravatar Sample.today
                 (Auth_login (Sample.form "alice@example.com" "secret1"))
                 Scenario.db)
     = contacts Scenario.db
  /\ exec Sample.auth Sample.gravatar Sample.today
       Route_get_upcoming_birthdays Scenario.db = Scenario.db.
Proof.
  split; [|split].
  - apply (tables_are_written_separately Sample.auth Sample.gravatar
             Sample.today (Route_create_contact Scenario.dave Sample.alice)
             Scenario.db).
    reflexivity.
  - apply (tables_are_written_separately Sample.auth Sample.gravatar
             Sample.today
             (Auth_login (Sample.form "alice@example.com" "secret1"))
             Scenario.db).
    reflexivity.
  - apply (tables_are_written_separately Sample.auth Sample.gravatar
             Sample.today Route_get_upcoming_birthdays Scenario.db).
    reflexivity.
Defined.

(** X14 on the sample store: Erin signs up, tries to log in, confirms,
    logs in. *)
Lemma signup_confirm_login_witness :
  AuthRoutes.login Sample.auth (Sample.form "erin@example.com" "pw1234")
    (after (AuthRoutes.signup Sample.auth Sample.gravatar Sample.erin []
              Sample.base_url) Sample.db)
  = (Raise (HTTPException 401 "Email not confirmed"),
     after (AuthRoutes.signup Sample.auth Sample.gravatar Sample.erin []
              Sample.base_url) Sample.db)
  /\
  fst (AuthRoutes.login Sample.auth (Sample.form "erin@example.com" "pw1234")
         (after (AuthRoutes.confirmed_email Sample.auth
                   "confirm:erin@example.com")
            (after (AuthRoutes.signup Sample.auth Sample.gravatar Sample.erin
                      [] Sample.base_url) Sample.db)))
  = Ok (TokenModel.mk "access:erin@example.com"
          "refresh:erin@example.com#2" "bearer").
Proof.
  destruct (signup_confirm_login Sample.auth Sample.auth Sample.auth
              Sample.gravatar Sample.erin [] Sample.base_url
              "confirm:erin@example.com" Sample.db sample_db_ok)
    as (Hblocked & _ & Hlogin & _).
  - apply sample_users; discriminate.
  - reflexivity.
  - split; [exact Hblocked|]. apply Hlogin. reflexivity.
Defined.

(** X15 on the sample store: Alice logs in and refreshes with the token
    she was given. *)
Lemma login_then_refresh_witness :
  fst (AuthRoutes.login Sample.auth
         (Sample.form "alice@example.com" "secret1") Sample.db)
  = Ok (TokenModel.mk "access:alice@example.com"
          "refresh:alice@example.com#2" "bearer")
  /\
  fst (AuthRoutes.refresh_token Sample.auth "refresh:alice@example.com#2"
         (after (AuthRoutes.login Sample.auth
                   (Sample.form "alice@example.com" "secret1")) Sample.db))
  = Ok (TokenModel.mk "access:alice@example.com"
          "refresh:alice@example.com#2" "bearer").
Proof.
  destruct (login_then_refresh Sample.auth Sample.auth
              (Sample.form "alice@example.com" "secret1") Sample.alice
              Sample.db sample_db_ok (or_introl eq_refl) eq_refl eq_refl
              eq_refl eq_refl) as (Hlogin & Hrefresh & _).
  split; [exact Hlogin | exact Hrefresh].
Defined.

(** X16 on the sample store: a stale token of Alice's, then the token that
    was stored. *)
Lemma stale_refresh_token_locks_out_witness :
  fst (AuthRoutes.refresh_token Sample.auth "refresh:alice@example.com#0"
         Sample.db)
  = Raise (HTTPException 401 "Invalid refresh token")
  /\
  AuthRoutes.refresh_token Sample.auth "refresh:alice@example.com#1"
    (after (AuthRoutes.refresh_token Sample.auth
              "refresh:alice@example.com#0") Sample.db)
  = (Raise (HTTPException 401 "Invalid refresh token"),
     after (AuthRoutes.refresh_token Sample.auth
              "refresh:alice@example.com#0") Sample.db).
Proof.
  destruct (stale_refresh_token_locks_out Sample.auth Sample.auth
              "refresh:alice@example.com#0" "refresh:alice@example.com#1"
              Sample.alice Sample.db sample_db_ok (or_introl eq_refl))
    as (Hfirst & _ & Hsecond); [discriminate | reflexivity | reflexivity |].
  split; [exact Hfirst | exact Hsecond].
Defined.

(** X17 on the sample store: Alice updates Carol with a payload that
    carries 1999-09-09 as its [update_date]. *)
Lemma update_date_is_construction_day_witness :
  exists body c',
    ContactUpdateSchema.init Sample.today Scenario.carol_data = inr body
    /\ data_update_date Scenario.carol_data
       = Some (Some (Date.ymd 1999 9 9))
    /\ fst (ContactRoutes.update_contact body 1 Sample.alice Scenario.db)
       = Ok c'
    /\ Contact.update_date c' = Some Sample.today
    /\ Contact.created_date c' = Some (Date.ymd 2023 11 5).
Proof.
  destruct (update_date_is_construction_day Sample.today Scenario.carol_data
              (ContactUpdateSchema.mk "Caroline" "Jones"
                 "caroline@example.com" "555-0199" (Date.ymd 1991 1 2)
                 (Some Sample.today))
              Sample.alice Sample.carol Scenario.db scenario_db_ok)
    as (c' & Hrun & Hupd & Hcre & _).
  - simpl. lia.
  - now left.
  - reflexivity.
  - reflexivity.
  - apply (scenario_contacts
             (fun d => Contact.id d <> Contact.id Sample.carol ->
                       Contact.email d <> data_email Scenario.carol_data));
      [intros E; now elim E | discriminate].
  - eexists. exists c'. split; [reflexivity|]. split; [reflexivity|].
    split; [apply (f_equal fst Hrun)|]. split; [exact Hupd | exact Hcre].
Defined.

(** X18 on the sample store: Alice creates Dave; Bob cannot touch him;
    Alice removes him. *)
Lemma created_contact_is_private_witness :
  exists c s1,
    ContactRoutes.create_contact Sample.today Scenario.dave Sample.alice
      Scenario.db = (Ok c, s1)
    /\ ContactRoutes.update_contact Scenario.carol_update (Contact.id c)
         Sample.bob s1 = (Raise ContactRoutes.NOT_FOUND, s1)
    /\ Contacts.remove_contact (PyInt (Contact.id c)) PyNone PySession
         (PyUser Sample.bob) s1 = (Ok None, s1)
    /\ fst (Contacts.remove_contact (PyInt (Contact.id c)) PyNone PySession
              (PyUser Sample.alice) s1) = Ok (Some c)
    /\ contacts (snd (Contacts.remove_contact (PyInt (Contact.id c)) PyNone
                        PySession (PyUser Sample.alice) s1))
       = contacts Scenario.db.
Proof.
  apply (created_contact_is_private Sample.today Scenario.dave
           Scenario.carol_update PyNone Sample.alice Sample.bob Scenario.db
           scenario_db_ok).
  - simpl. lia.
  - discriminate.
  - apply scenario_contacts; discriminate.
Defined.
